(** * Merkle tree accumulator for donation verification

    A shallow embedding of [backend/donations/merkle_utils.py]: the
    SHA-256 hashing primitive, the [MerkleTree] engine (construction, root
    retrieval, proof generation, static proof verification), the donation
    adapter and the end-to-end check [verify_donation_inclusion].

    Conventions of the embedding.
    - A Python [str] is a [string]: the sequence of the bytes of its UTF-8
      encoding, so that [s.encode('utf-8')] is the identity and [+] on
      [str] is [String.append].
    - A Python [int] is a [Z]; [//] is [Z.div] and [%] is [Z.modulo]
      (both round toward minus infinity, as Python does).
    - A function that may raise returns a [result]; the exception carried
      is the one the Python code raises at that point. *)

From Stdlib Require Import ZArith List String Ascii Bool Lia Arith.
From Stdlib Require Import DecimalString.
From Stdlib Require DecimalPos DecimalZ.
Import ListNotations.

Local Open Scope string_scope.
Local Open Scope list_scope.
Local Open Scope Z_scope.

Set Implicit Arguments.
Set Warnings "-register-all".

(* ================================================================== *)
(** ** SHA-256 (FIPS 180-4), the digest behind [hashlib.sha256] *)
(* ================================================================== *)

Module SHA256.

(** 32-bit words are integers in [0, 2^32). *)
Definition wrap32 (x : Z) : Z := x mod 4294967296.

Definition add32 (x y : Z) : Z := wrap32 (x + y).

Definition not32 (x : Z) : Z := Z.lxor x 4294967295.

Definition rotr (n x : Z) : Z :=
  Z.lor (Z.shiftr x n) (wrap32 (Z.shiftl x (32 - n))).

Definition shr (n x : Z) : Z := Z.shiftr x n.

Definition Ch (x y z : Z) : Z :=
  Z.lxor (Z.land x y) (Z.land (not32 x) z).

Definition Maj (x y z : Z) : Z :=
  Z.lxor (Z.lxor (Z.land x y) (Z.land x z)) (Z.land y z).

Definition Sigma0 (x : Z) : Z :=
  Z.lxor (Z.lxor (rotr 2 x) (rotr 13 x)) (rotr 22 x).

Definition Sigma1 (x : Z) : Z :=
  Z.lxor (Z.lxor (rotr 6 x) (rotr 11 x)) (rotr 25 x).

Definition sigma0 (x : Z) : Z :=
  Z.lxor (Z.lxor (rotr 7 x) (rotr 18 x)) (shr 3 x).

Definition sigma1 (x : Z) : Z :=
  Z.lxor (Z.lxor (rotr 17 x) (rotr 19 x)) (shr 10 x).

(** The first 64 primes, by trial division. *)
Definition is_prime (n : Z) : bool :=
  forallb (fun d => negb (n mod Z.of_nat d =? 0)) (seq 2 (Z.to_nat n - 2)).

Definition primes : list Z :=
  Eval vm_compute in
    filter is_prime (map Z.of_nat (seq 2 310)).

(** Integer cube root, one bit at a time from bit [bits - 1] down. *)
Fixpoint cube_root_bits (bits : nat) (n acc : Z) : Z :=
  match bits with
  | O => acc
  | S b =>
      let c := acc + 2 ^ Z.of_nat b in
      cube_root_bits b n (if c * c * c <=? n then c else acc)
  end.

Definition cube_root (n : Z) : Z := cube_root_bits 40 n 0.

(** Round constants: the first 32 bits of the fractional parts of the
    cube roots of the first 64 primes. *)
Definition K : list Z :=
  Eval vm_compute in
    map (fun p => wrap32 (cube_root (p * 2 ^ 96))) primes.

(** Initial hash value: the first 32 bits of the fractional parts of the
    square roots of the first 8 primes. *)
Definition H0 : list Z :=
  Eval vm_compute in
    map (fun p => wrap32 (Z.sqrt (p * 2 ^ 64))) (firstn 8 primes).

Definition bytes_of_string (s : string) : list Z :=
  map (fun c => Z.of_N (N_of_ascii c)) (list_ascii_of_string s).

(** The [n] low bytes of [x], most significant first. *)
Fixpoint be_bytes (n : nat) (x : Z) : list Z :=
  match n with
  | O => []
  | S n' => be_bytes n' (Z.shiftr x 8) ++ [Z.land x 255]
  end.

(** Padding: a 1 bit, zeros up to 56 mod 64 bytes, the bit length on 64
    bits. *)
Definition pad (msg : list Z) : list Z :=
  let len := Z.of_nat (List.length msg) in
  let zeros := Z.to_nat ((55 - len) mod 64) in
  msg ++ [128] ++ repeat 0 zeros ++ be_bytes 8 (8 * len).

(** Big-endian 32-bit words of a byte sequence whose length is a
    multiple of 4 (a trailing partial word is dropped). *)
Fixpoint words_of_bytes (bs : list Z) : list Z :=
  match bs with
  | b0 :: b1 :: b2 :: b3 :: rest =>
      (((b0 * 256 + b1) * 256 + b2) * 256 + b3) :: words_of_bytes rest
  | _ => []
  end.

(** Message schedule: extend the 16 words of a block by [n] words. *)
Fixpoint expand (n : nat) (w : list Z) : list Z :=
  match n with
  | O => w
  | S n' =>
      let t := List.length w in
      let x :=
        add32 (add32 (sigma1 (nth (t - 2) w 0)) (nth (t - 7) w 0))
              (add32 (sigma0 (nth (t - 15) w 0)) (nth (t - 16) w 0)) in
      expand n' (w ++ [x])
  end.

(** The working variables a..h. *)
Record regs : Type := mkRegs {
  ra : Z; rb : Z; rc : Z; rd : Z; re : Z; rf : Z; rg : Z; rh : Z
}.

Definition regs_of_list (l : list Z) : regs :=
  mkRegs (nth 0 l 0) (nth 1 l 0) (nth 2 l 0) (nth 3 l 0)
         (nth 4 l 0) (nth 5 l 0) (nth 6 l 0) (nth 7 l 0).

Definition list_of_regs (r : regs) : list Z :=
  [ra r; rb r; rc r; rd r; re r; rf r; rg r; rh r].

Definition round (r : regs) (kw : Z * Z) : regs :=
  let (k, w) := kw in
  let t1 :=
    add32 (add32 (add32 (add32 (rh r) (Sigma1 (re r)))
                        (Ch (re r) (rf r) (rg r))) k) w in
  let t2 := add32 (Sigma0 (ra r)) (Maj (ra r) (rb r) (rc r)) in
  mkRegs (add32 t1 t2) (ra r) (rb r) (rc r)
         (add32 (rd r) t1) (re r) (rf r) (rg r).

Definition compress (h : list Z) (block : list Z) : list Z :=
  let w := expand 48 block in
  let r := fold_left round (combine K w) (regs_of_list h) in
  map (fun p => add32 (fst p) (snd p)) (combine h (list_of_regs r)).

(** Process the word stream sixteen words at a time. *)
Fixpoint process (nblocks : nat) (h : list Z) (ws : list Z) : list Z :=
  match nblocks with
  | O => h
  | S n' => process n' (compress h (firstn 16 ws)) (skipn 16 ws)
  end.

Definition digest_words (msg : list Z) : list Z :=
  let ws := words_of_bytes (pad msg) in
  process (List.length ws / 16)%nat H0 ws.

Definition hex_digit (d : Z) : ascii :=
  if d <? 10 then ascii_of_N (Z.to_N (48 + d))
  else ascii_of_N (Z.to_N (87 + d)).

(** The [n] low hexadecimal digits of [x], lower case. *)
Fixpoint hex_of_word (n : nat) (x : Z) : string :=
  match n with
  | O => EmptyString
  | S n' =>
      String.append (hex_of_word n' (Z.shiftr x 4))
                    (String (hex_digit (Z.land x 15)) EmptyString)
  end.

(** [hashlib.sha256(bs).hexdigest()] *)
Definition hexdigest (msg : list Z) : string :=
  String.concat "" (map (hex_of_word 8) (digest_words msg)).

End SHA256.

(* ================================================================== *)
(** ** Python values, exceptions and sequences *)
(* ================================================================== *)

(** The exceptions the module can raise.  [LoopBound] is not a Python
    exception: it marks the bound the embedding puts on the [while] loop
    of [_build_tree]; it is shown below never to be reached. *)
Inductive exn : Type :=
| ValueError (msg : string)
| IndexError (msg : string)
| KeyError (key : string)
| StoreError (msg : string)
| LoopBound.

Inductive result (A : Type) : Type :=
| Ok (a : A)
| Raise (e : exn).

Arguments Ok {A} a.
Arguments Raise {A} e.

Definition bind {A B : Type} (r : result A) (k : A -> result B) : result B :=
  match r with
  | Ok a => k a
  | Raise e => Raise e
  end.

Notation "x <- r ;; k" := (bind r (fun x => k))
  (at level 61, r at next level, right associativity).

(** [str(e)] *)
Definition str_of_exn (e : exn) : string :=
  match e with
  | ValueError msg => msg
  | IndexError msg => msg
  | KeyError key => String.append "'" (String.append key "'")
  | StoreError msg => msg
  | LoopBound => "loop bound"
  end.

(** [len(l)] *)
Definition len {A : Type} (l : list A) : Z := Z.of_nat (List.length l).

(** [l[i]]: negative indices count from the end, anything outside
    [-len(l), len(l)) raises [IndexError]. *)
Definition getitem {A : Type} (l : list A) (i : Z) : result A :=
  let j := if i <? 0 then len l + i else i in
  if (0 <=? j) && (j <? len l) then
    match nth_error l (Z.to_nat j) with
    | Some a => Ok a
    | None => Raise (IndexError "list index out of range")
    end
  else Raise (IndexError "list index out of range").

(** [enumerate(l)] *)
Definition enumerate {A : Type} (l : list A) : list (nat * A) :=
  combine (seq 0 (List.length l)) l.

(** [str(n)] for a natural number and for an integer. *)
Definition str_of_nat (n : nat) : string :=
  NilZero.string_of_uint (Nat.to_uint n).

Definition str_of_int (z : Z) : string :=
  NilZero.string_of_int (Z.to_int z).

(** JSON-like values, for the dictionaries handed back to the views. *)
Inductive pyval : Type :=
| PBool (b : bool)
| PInt (z : Z)
| PStr (s : string)
| PList (l : list pyval)
| PDict (d : list (string * pyval)).

(** A [Dict] with string keys, in insertion order. *)
Definition Dict : Type := list (string * pyval).

Fixpoint dict_get (d : Dict) (key : string) : option pyval :=
  match d with
  | [] => None
  | (k, v) :: d' => if String.eqb k key then Some v else dict_get d' key
  end.

(* ================================================================== *)
(** ** The Merkle tree engine *)
(* ================================================================== *)

(** [hashlib.sha256(data.encode('utf-8')).hexdigest()] *)
Definition sha256_hex (data : string) : string :=
  SHA256.hexdigest (SHA256.bytes_of_string data).

(** [@dataclass class MerkleProof] *)
Module MerkleProof.
Record t : Type := mk {
  proof : list string;
  leaf : string;
  root : string;
  index : Z
}.
End MerkleProof.

(** [class MerkleNode] *)
Inductive MerkleNode : Type :=
| mkMerkleNode (hash : string) (left right : option MerkleNode)
               (data : option string).

Definition hash (n : MerkleNode) : string :=
  match n with mkMerkleNode h _ _ _ => h end.

Definition left (n : MerkleNode) : option MerkleNode :=
  match n with mkMerkleNode _ l _ _ => l end.

Definition right (n : MerkleNode) : option MerkleNode :=
  match n with mkMerkleNode _ _ r _ => r end.

Definition data (n : MerkleNode) : option string :=
  match n with mkMerkleNode _ _ _ d => d end.

Module MerkleTree.

(** The attributes of a [MerkleTree] object. *)
Record t : Type := mk {
  leaves : list string;
  tree : list (list MerkleNode);
  root : option MerkleNode
}.

(** [def _hash(self, data)] *)
Definition _hash (data : string) : string := sha256_hex data.

(** The body of [for i in range(0, len(current_level), 2)]: the nodes
    are taken two at a time; a last node without a partner is paired
    with itself, and its parent keeps it as left child only
    ([right if right != left else None] compares object identities, and
    [right] is the object [left] exactly in that case). *)
Fixpoint next_level (current_level : list MerkleNode) : list MerkleNode :=
  match current_level with
  | [] => []
  | [left] =>
      [mkMerkleNode (_hash (String.append (hash left) (hash left)))
                    (Some left) None None]
  | left :: right :: rest =>
      mkMerkleNode (_hash (String.append (hash left) (hash right)))
                   (Some left) (Some right) None
      :: next_level rest
  end.

(** [while len(current_level) > 1: ...], at most [fuel] tests of the
    condition; [None] when the bound is reached.  Returns the list of
    levels and the last [current_level]. *)
Fixpoint build_loop (fuel : nat) (tree : list (list MerkleNode))
         (current_level : list MerkleNode)
  : option (list (list MerkleNode) * list MerkleNode) :=
  match fuel with
  | O => None
  | S fuel' =>
      if len current_level >? 1 then
        let next := next_level current_level in
        build_loop fuel' (tree ++ [next]) next
      else Some (tree, current_level)
  end.

(** [[MerkleNode(leaf, data=f"leaf_{i}")
      for i, leaf in enumerate(self.leaves)]] *)
Definition leaf_nodes (leaves : list string) : list MerkleNode :=
  map (fun il : nat * string =>
         mkMerkleNode (snd il) None None
                      (Some (String.append "leaf_" (str_of_nat (fst il)))))
      (enumerate leaves).

(** [def _build_tree(self)] *)
Definition _build_tree (self : t) : result t :=
  let current_level := leaf_nodes (leaves self) in
  let tree0 := tree self ++ [current_level] in
  match build_loop (S (List.length current_level)) tree0 current_level with
  | None => Raise LoopBound
  | Some (tree1, current_level1) =>
      r <- getitem current_level1 0 ;;
      Ok (mk (leaves self) tree1 (Some r))
  end.

(** [def __init__(self, data)] *)
Definition __init__ (data : list string) : result t :=
  match data with
  | [] => Raise (ValueError "Cannot build tree with empty data")
  | _ :: _ => _build_tree (mk (map _hash data) [] None)
  end.

(** [def get_root_hash(self)] *)
Definition get_root_hash (self : t) : result string :=
  match root self with
  | None => Raise (ValueError "Tree not built")
  | Some r => Ok (hash r)
  end.

(** The body of [for level in range(len(self.tree) - 1)] of
    [generate_proof], over the levels [self.tree[0]], ...,
    [self.tree[len(self.tree) - 2]] in turn. *)
Fixpoint proof_loop (levels : list (list MerkleNode)) (proof : list string)
         (current_index : Z) : result (list string) :=
  match levels with
  | [] => Ok proof
  | current_level :: levels' =>
      let is_right_node := current_index mod 2 =? 1 in
      proof' <-
        (if is_right_node then
           let sibling_index := current_index - 1 in
           if sibling_index >=? 0 then
             s <- getitem current_level sibling_index ;;
             Ok (proof ++ [hash s])
           else Ok proof
         else
           let sibling_index := current_index + 1 in
           if sibling_index <? len current_level then
             s <- getitem current_level sibling_index ;;
             Ok (proof ++ [hash s])
           else Ok proof) ;;
      proof_loop levels' proof' (current_index / 2)
  end.

(** [def generate_proof(self, leaf_index)] *)
Definition generate_proof (self : t) (leaf_index : Z)
  : result MerkleProof.t :=
  if (leaf_index <? 0) || (leaf_index >=? len (leaves self)) then
    Raise (ValueError "Invalid leaf index")
  else
    proof <- proof_loop (removelast (tree self)) [] leaf_index ;;
    leaf <- getitem (leaves self) leaf_index ;;
    root <- get_root_hash self ;;
    Ok (MerkleProof.mk proof leaf root leaf_index).

(** The loop of [verify_proof]. *)
Fixpoint verify_loop (siblings : list string) (computed_hash : string)
         (current_index : Z) : string :=
  match siblings with
  | [] => computed_hash
  | sibling_hash :: siblings' =>
      let is_right_node := current_index mod 2 =? 1 in
      let combined :=
        if is_right_node then String.append sibling_hash computed_hash
        else String.append computed_hash sibling_hash in
      verify_loop siblings' (sha256_hex combined) (current_index / 2)
  end.

(** [@staticmethod def verify_proof(merkle_proof)] *)
Definition verify_proof (merkle_proof : MerkleProof.t) : bool :=
  String.eqb
    (verify_loop (MerkleProof.proof merkle_proof)
                 (MerkleProof.leaf merkle_proof)
                 (MerkleProof.index merkle_proof))
    (MerkleProof.root merkle_proof).

(** [def get_tree_info(self)] *)
Definition get_tree_info (self : t) : result Dict :=
  root_hash <- get_root_hash self ;;
  Ok [ ("total_leaves", PInt (len (leaves self)));
       ("tree_depth", PInt (len (tree self)));
       ("root_hash", PStr root_hash);
       ("leaves", PList (map PStr (firstn 5 (leaves self)))) ].

End MerkleTree.

(* ================================================================== *)
(** ** The donation adapter *)
(* ================================================================== *)

(** A [Donation] row, with the fields the adapter reads.  The [models]
    module is not among the sources; [amount] is kept in the text the
    f-string renders for it and [created_at] as the integer
    [int(created_at.timestamp())]. *)
Module Donation.
Record t : Type := mk {
  id : Z;
  donor_address : string;
  amount : string;
  created_at : Z;
  tx_hash : string
}.
End Donation.

(** The query
    [list(Donation.objects.filter(charity_id=..., confirmed=True)
          .order_by('created_at'))]
    of the external store: the confirmed donations of a charity in
    creation order, or an exception. *)
Definition Store : Type := Z -> result (list Donation.t).

(** The externally supplied proof payload: a dictionary in which each of
    the four keys may be absent; a value that is present has the type of
    the [MerkleProof] field it fills. *)
Module Payload.
Record t : Type := mk {
  proof : option (list string);
  leaf : option string;
  root : option string;
  index : option Z
}.
End Payload.

(** [provided_proof[key]] *)
Definition lookup {A : Type} (key : string) (v : option A) : result A :=
  match v with
  | Some a => Ok a
  | None => Raise (KeyError key)
  end.

Definition sep (a b : string) : string :=
  String.append a (String.append ":" b).

Module DonationMerkleTree.

(** A [DonationMerkleTree] object: the attributes it inherits from
    [MerkleTree] and its own [donations]. *)
Record t : Type := mk {
  base : MerkleTree.t;
  donations : list Donation.t
}.

(** The standardized donation string
    [f"{id}:{donor_address}:{amount}:{int(created_at.timestamp())}:{tx_hash}"] *)
Definition donation_str (donation : Donation.t) : string :=
  sep (str_of_int (Donation.id donation))
    (sep (Donation.donor_address donation)
       (sep (Donation.amount donation)
          (sep (str_of_int (Donation.created_at donation))
             (Donation.tx_hash donation)))).

(** [def __init__(self, donations)] *)
Definition __init__ (donations : list Donation.t) : result t :=
  let donation_strings := map donation_str donations in
  b <- MerkleTree.__init__ donation_strings ;;
  Ok (mk b donations).

(** [next(i for i, donation in enumerate(donations)
          if donation.id == donation_id)]; [None] is [StopIteration]. *)
Fixpoint find_index (i : Z) (donations : list Donation.t) (donation_id : Z)
  : option Z :=
  match donations with
  | [] => None
  | donation :: donations' =>
      if Donation.id donation =? donation_id then Some i
      else find_index (i + 1) donations' donation_id
  end.

(** [def generate_donation_proof(self, donation_id)] *)
Definition generate_donation_proof (self : t) (donation_id : Z)
  : result (option MerkleProof.t) :=
  match find_index 0 (donations self) donation_id with
  | Some donation_index =>
      p <- MerkleTree.generate_proof (base self) donation_index ;;
      Ok (Some p)
  | None => Ok None
  end.

(** [def get_donation_hash(self, donation)] *)
Definition get_donation_hash (donation : Donation.t) : string :=
  MerkleTree._hash (donation_str donation).

End DonationMerkleTree.

(** [def create_charity_merkle_tree(charity_id)]: any exception of the
    [try] block gives [None]. *)
Definition create_charity_merkle_tree (store : Store) (charity_id : Z)
  : option DonationMerkleTree.t :=
  let attempt :=
    donations <- store charity_id ;;
    match donations with
    | [] => Ok None
    | _ :: _ =>
        t <- DonationMerkleTree.__init__ donations ;;
        Ok (Some t)
    end in
  match attempt with
  | Ok r => r
  | Raise _ => None
  end.

(** The [try] block of [verify_donation_inclusion]. *)
Definition verify_donation_inclusion_try (store : Store) (charity_id : Z)
           (provided_proof : Payload.t) : result Dict :=
  match create_charity_merkle_tree store charity_id with
  | None =>
      Ok [ ("verified", PBool false);
           ("error", PStr "No donations found for this charity") ]
  | Some merkle_tree =>
      let self := DonationMerkleTree.base merkle_tree in
      current_root <- MerkleTree.get_root_hash self ;;
      p <- lookup "proof" (Payload.proof provided_proof) ;;
      l <- lookup "leaf" (Payload.leaf provided_proof) ;;
      r <- lookup "root" (Payload.root provided_proof) ;;
      i <- lookup "index" (Payload.index provided_proof) ;;
      let proof := MerkleProof.mk p l r i in
      let is_valid_proof := MerkleTree.verify_proof proof in
      let root_matches := String.eqb (MerkleProof.root proof) current_root in
      tree_info <- MerkleTree.get_tree_info self ;;
      Ok [ ("verified", PBool (is_valid_proof && root_matches));
           ("proof_valid", PBool is_valid_proof);
           ("root_matches", PBool root_matches);
           ("current_root", PStr current_root);
           ("provided_root", PStr (MerkleProof.root proof));
           ("tree_info", PDict tree_info) ]
  end.

(** [def verify_donation_inclusion(charity_id, provided_proof)]: the
    [except Exception] clause turns whatever the block raises into a
    dictionary. *)
Definition verify_donation_inclusion (store : Store) (charity_id : Z)
           (provided_proof : Payload.t) : result Dict :=
  match verify_donation_inclusion_try store charity_id provided_proof with
  | Ok d => Ok d
  | Raise e =>
      Ok [ ("verified", PBool false); ("error", PStr (str_of_exn e)) ]
  end.

(** A dictionary in which a value may be Python's [None]. *)
Definition DictOpt : Type := list (string * option pyval).

(** [def get_donation_merkle_info(charity_id)].  [isoformat] stands for
    [donation.created_at.isoformat()], the text of the creation date,
    which the integer [created_at] kept in [Donation.t] does not
    determine. *)
Definition get_donation_merkle_info (store : Store)
           (isoformat : Donation.t -> string) (charity_id : Z)
  : result DictOpt :=
  let attempt :=
    match create_charity_merkle_tree store charity_id with
    | None => Ok [ ("error", Some (PStr "No donations found")) ]
    | Some merkle_tree =>
        root_hash <-
          MerkleTree.get_root_hash (DonationMerkleTree.base merkle_tree) ;;
        Ok [ ("root_hash", Some (PStr root_hash));
             ("total_donations",
              Some (PInt (len (DonationMerkleTree.donations merkle_tree))));
             ("tree_depth",
              Some (PInt (len (MerkleTree.tree
                                 (DonationMerkleTree.base merkle_tree)))));
             ("created_at",
              match DonationMerkleTree.donations merkle_tree with
              | donation :: _ => Some (PStr (isoformat donation))
              | [] => None
              end) ]
    end in
  match attempt with
  | Ok d => Ok d
  | Raise e => Ok [ ("error", Some (PStr (str_of_exn e))) ]
  end.

(* ================================================================== *)
(** ** Vocabulary of the statements *)
(* ================================================================== *)

(** The levels above [cur]: each one is [next_level] of the one below,
    and the list stops at the first level of at most one node. *)
Inductive chain : list MerkleNode -> list (list MerkleNode) -> Prop :=
| chain_top (cur : list MerkleNode) :
    len cur <= 1 -> chain cur []
| chain_up (cur : list MerkleNode) (rest : list (list MerkleNode)) :
    1 < len cur ->
    chain (MerkleTree.next_level cur) rest ->
    chain cur (MerkleTree.next_level cur :: rest).

(** What a tree looks like once [__init__] has returned: the leaf
    level, the chain of levels above it, and the single node on top as
    root. *)
Inductive built (data : list string) : MerkleTree.t -> Prop :=
| built_intro (rest : list (list MerkleNode)) (r : MerkleNode) :
    chain (MerkleTree.leaf_nodes (map MerkleTree._hash data)) rest ->
    last rest (MerkleTree.leaf_nodes (map MerkleTree._hash data)) = [r] ->
    built data (MerkleTree.mk (map MerkleTree._hash data)
                   (MerkleTree.leaf_nodes (map MerkleTree._hash data) :: rest)
                   (Some r)).

(** Two different strings with the same SHA-256 digest. *)
Definition sha256_collision : Prop :=
  exists x y : string, x <> y /\ sha256_hex x = sha256_hex y.

(** The list [l] with its element at position [k] replaced by [a]. *)
Fixpoint set_nth {A : Type} (k : nat) (a : A) (l : list A) : list A :=
  match l, k with
  | [], _ => []
  | _ :: l', O => a :: l'
  | x :: l', S k' => x :: set_nth k' a l'
  end.

(** The characters of a lower-case hexadecimal digest. *)
Definition is_hex_char (c : ascii) : bool :=
  existsb (Ascii.eqb c) (list_ascii_of_string "0123456789abcdef").

(** A string of the length of a digest. *)
Definition digest_length (s : string) : Prop := String.length s = 64%nat.

(** The hashes of a level are digests. *)
Definition level_of_digests (l : list MerkleNode) : Prop :=
  Forall (fun n => digest_length (hash n)) l.

(** The tree information of a tree with the given leaf hashes and root
    hash, the depth being 1 + ceil(log2(number of leaves)). *)
Definition tree_info_of (leaf_hashes : list string) (root_hash : string)
  : Dict :=
  [ ("total_leaves", PInt (len leaf_hashes));
    ("tree_depth", PInt (1 + Z.log2_up (len leaf_hashes)));
    ("root_hash", PStr root_hash);
    ("leaves", PList (map PStr (firstn 5 leaf_hashes))) ].

(** A string without the delimiter [:] of the donation strings. *)
Definition colon_free (s : string) : Prop :=
  Forall (fun c => c <> ":"%char) (list_ascii_of_string s).

(** The string hashed at one step of [verify_loop]. *)
Definition combined (sibling_hash computed_hash : string) (idx : Z)
  : string :=
  if idx mod 2 =? 1 then String.append sibling_hash computed_hash
  else String.append computed_hash sibling_hash.

(* ================================================================== *)
(** ** SHA-256 against its published test vectors *)
(* ================================================================== *)

Example sha256_constants_shape :
  List.length SHA256.primes = 64%nat /\ nth 63 SHA256.primes 0 = 311
  /\ List.length SHA256.K = 64%nat /\ List.length SHA256.H0 = 8%nat.
Proof. repeat split. Qed.

(** Test vectors of FIPS 180-4 / NIST. *)
Example sha256_empty :
  SHA256.hexdigest (SHA256.bytes_of_string "")
  = "e3b0c44298fc1c149afbf4c8996fb92427ae41e4649b934ca495991b7852b855".
Proof. vm_compute. reflexivity. Qed.

Example sha256_abc :
  SHA256.hexdigest (SHA256.bytes_of_string "abc")
  = "ba7816bf8f01cfea414140de5dae2223b00361a396177a9cb410ff61f20015ad".
Proof. vm_compute. reflexivity. Qed.

Example sha256_two_blocks :
  SHA256.hexdigest
    (SHA256.bytes_of_string
       "abcdbcdecdefdefgefghfghighijhijkijkljklmklmnlmnomnopnopq")
  = "248d6a61d20638b8e5c026930c3e6039a33ce45964ff2167f6ecedd419db06c1".
Proof. vm_compute. reflexivity. Qed.

Opaque sha256_hex.

(* ================================================================== *)
(** ** Digests of the records used in the concrete trees below *)
(* ================================================================== *)

Lemma digest_A :
  sha256_hex "A"
  = "559aead08264d5795d3909718cdd05abd49572e84fe55590eef31a88a08fdffd".
Proof. vm_compute. reflexivity. Qed.

Lemma digest_B :
  sha256_hex "B"
  = "df7e70e5021544f4834bbee64a9e3789febc4be81470df629cad6ddb03320a5c".
Proof. vm_compute. reflexivity. Qed.

Lemma digest_C :
  sha256_hex "C"
  = "6b23c0d5f35d1b11f9b683f0b0a617355deb11277d91ae091d399c655b87940d".
Proof. vm_compute. reflexivity. Qed.

(** hash(a + b) *)
Lemma digest_ab :
  sha256_hex
    (String.append
       "559aead08264d5795d3909718cdd05abd49572e84fe55590eef31a88a08fdffd"
       "df7e70e5021544f4834bbee64a9e3789febc4be81470df629cad6ddb03320a5c")
  = "b30ab174f7459cdd40a3acdf15d0c9444fec2adcfb9d579aa154c084885edd0a".
Proof. vm_compute. reflexivity. Qed.

(** hash(c + c) *)
Lemma digest_cc :
  sha256_hex
    (String.append
       "6b23c0d5f35d1b11f9b683f0b0a617355deb11277d91ae091d399c655b87940d"
       "6b23c0d5f35d1b11f9b683f0b0a617355deb11277d91ae091d399c655b87940d")
  = "84a3defdb78365472865549822bb4e2fc0a1d50a9a73199251e0320dff0cef03".
Proof. vm_compute. reflexivity. Qed.

(** hash(hash(a + b) + hash(c + c)) *)
Lemma digest_ab_cc :
  sha256_hex
    (String.append
       "b30ab174f7459cdd40a3acdf15d0c9444fec2adcfb9d579aa154c084885edd0a"
       "84a3defdb78365472865549822bb4e2fc0a1d50a9a73199251e0320dff0cef03")
  = "bd144551df2d311a947adbb0fc4b4bfa7bd76ae0e60095d88a8f79a3e3986af6".
Proof. vm_compute. reflexivity. Qed.

(** hash(c + hash(a + b)) *)
Lemma digest_c_ab :
  sha256_hex
    (String.append
       "6b23c0d5f35d1b11f9b683f0b0a617355deb11277d91ae091d399c655b87940d"
       "b30ab174f7459cdd40a3acdf15d0c9444fec2adcfb9d579aa154c084885edd0a")
  = "c948fec4a9ec9c709befe7bd17a2105acff0fce23aceaeeff36be13ff18e9b3f".
Proof. vm_compute. reflexivity. Qed.

Lemma digest_donation_1 :
  sha256_hex "1:0xaa:10.00:1700000000:0x01"
  = "71d06ba72c2b3ecae763d13006e3120859a2a64b967e679836eea785203b49cc".
Proof. vm_compute. reflexivity. Qed.

Lemma digest_donation_2 :
  sha256_hex "2:0xbb:2.50:1700000100:0x02"
  = "b8f7795e87491ebb842dd5e404db715edc79666471f1d5e7db0118a228f7017e".
Proof. vm_compute. reflexivity. Qed.

Lemma digest_donations_root :
  sha256_hex
    (String.append
       "71d06ba72c2b3ecae763d13006e3120859a2a64b967e679836eea785203b49cc"
       "b8f7795e87491ebb842dd5e404db715edc79666471f1d5e7db0118a228f7017e")
  = "1b7c8c3b33e8f9ea99de4fe1d89b08ee39be91ee3752d8e65c46d307a170fb2d".
Proof. vm_compute. reflexivity. Qed.

(** Replace the digests above by their values, innermost first. *)
Ltac digests :=
  try unfold MerkleTree._hash;
  rewrite ?digest_A, ?digest_B, ?digest_C,
          ?digest_donation_1, ?digest_donation_2;
  rewrite ?digest_ab, ?digest_cc, ?digest_donations_root;
  rewrite ?digest_ab_cc, ?digest_c_ab.

(* ================================================================== *)
(** ** Basic facts about sequences and levels *)
(* ================================================================== *)

Section ListFacts.

Variable A : Type.

(** Induction two elements at a time, the way [next_level] recurses. *)
Lemma list_pair_ind (P : list A -> Prop) :
  P [] ->
  (forall x, P [x]) ->
  (forall x y l, P l -> P (x :: y :: l)) ->
  forall l, P l.
Proof.
  intros Hnil Hone Hstep.
  assert (H : forall l, P l /\ forall x, P (x :: l)).
  { induction l as [|y l [IH1 IH2]].
    - split; [exact Hnil | exact Hone].
    - split; [apply IH2 | intro x; apply Hstep; exact IH1]. }
  intro l. apply H.
Qed.

Lemma len_nonneg (l : list A) : 0 <= len l.
Proof. unfold len. lia. Qed.

Lemma len_cons (x : A) (l : list A) : len (x :: l) = len l + 1.
Proof. unfold len. simpl List.length. lia. Qed.

Lemma len_nil : len (@nil A) = 0.
Proof. reflexivity. Qed.

Lemma len_app (l1 l2 : list A) : len (l1 ++ l2) = len l1 + len l2.
Proof. unfold len. rewrite length_app. lia. Qed.

(** Inside the bounds, [l[i]] is the element at position [i]. *)
Lemma getitem_in_range (l : list A) (i : Z) :
  0 <= i < len l ->
  exists a, getitem l i = Ok a /\ nth_error l (Z.to_nat i) = Some a.
Proof.
  intros Hi. unfold getitem.
  destruct (i <? 0) eqn:Hneg; [apply Z.ltb_lt in Hneg; lia|].
  assert (Hlo : (0 <=? i) = true) by (apply Z.leb_le; lia).
  assert (Hhi : (i <? len l) = true) by (apply Z.ltb_lt; lia).
  rewrite Hlo, Hhi. simpl.
  destruct (nth_error l (Z.to_nat i)) as [a|] eqn:Hn.
  - exists a. split; reflexivity.
  - apply nth_error_None in Hn. unfold len in Hi. lia.
Qed.

Lemma last_cons (l : list A) :
  forall x d, last (x :: l) d = last l x.
Proof.
  induction l as [|y l IH]; intros x d; [reflexivity|].
  change (last (x :: y :: l) d) with (last (y :: l) d).
  rewrite (IH y d), (IH y x). reflexivity.
Qed.

Lemma removelast_cons2 (x y : A) (l : list A) :
  removelast (x :: y :: l) = x :: removelast (y :: l).
Proof. reflexivity. Qed.

End ListFacts.

Section Levels.

Import MerkleTree.

Lemma next_level_len (l : list MerkleNode) :
  len (next_level l) = (len l + 1) / 2.
Proof.
  induction l as [| x | x y l IH] using list_pair_ind.
  - reflexivity.
  - reflexivity.
  - change (next_level (x :: y :: l))
      with (mkMerkleNode
              (_hash (String.append (hash x) (hash y)))
              (Some x) (Some y) None :: next_level l).
    rewrite !len_cons, IH.
    replace (len l + 1 + 1 + 1) with ((len l + 1) + 1 * 2) by lia.
    rewrite Z.div_add by lia. reflexivity.
Qed.

(** With enough fuel the loop ends on its condition, and has appended
    the chain of levels above [cur]. *)
Lemma build_loop_chain (fuel : nat) :
  forall tree cur,
    len cur <= Z.of_nat fuel -> (1 <= fuel)%nat ->
    exists rest,
      build_loop fuel tree cur = Some (tree ++ rest, last rest cur)
      /\ chain cur rest.
Proof.
  induction fuel as [|fuel IH]; intros tree cur Hlen Hfuel; [lia|].
  simpl build_loop.
  destruct (len cur >? 1) eqn:Hgt.
  - assert (Hc : 1 < len cur) by (apply Z.gtb_lt in Hgt; lia).
    destruct (IH (tree ++ [next_level cur]) (next_level cur))
      as [rest [Hrun Hch]].
    + rewrite next_level_len.
      assert ((len cur + 1) / 2 < len cur)
        by (apply Z.div_lt_upper_bound; lia).
      lia.
    + lia.
    + exists (next_level cur :: rest). split.
      * rewrite Hrun, <- app_assoc, last_cons. reflexivity.
      * constructor; assumption.
  - exists []. split.
    + rewrite app_nil_r. reflexivity.
    + constructor. destruct (Z.gtb_spec (len cur) 1); [discriminate | lia].
Qed.

(** The top of a chain over a non-empty level is a single node. *)
Lemma chain_last_single (cur : list MerkleNode) rest :
  chain cur rest -> 0 < len cur -> len (last rest cur) = 1.
Proof.
  induction 1 as [cur Hle | cur rest Hlt Hch IH]; intros Hpos.
  - simpl. lia.
  - assert (Hn : 0 < len (next_level cur)).
    { rewrite next_level_len.
      apply Z.div_str_pos. lia. }
    rewrite last_cons. exact (IH Hn).
Qed.

End Levels.

(* ================================================================== *)
(** ** Construction *)
(* ================================================================== *)

Section Construction.

Import MerkleTree.

Lemma leaf_nodes_length (l : list string) :
  List.length (leaf_nodes l) = List.length l.
Proof.
  unfold leaf_nodes, enumerate.
  rewrite length_map, length_combine, length_seq. apply Nat.min_id.
Qed.

Lemma leaf_nodes_len (l : list string) : len (leaf_nodes l) = len l.
Proof. unfold len. rewrite leaf_nodes_length. reflexivity. Qed.

Lemma leaf_nodes_hash_from (l : list string) :
  forall start,
    map hash
        (map (fun il : nat * string =>
                mkMerkleNode (snd il) None None
                  (Some (String.append "leaf_" (str_of_nat (fst il)))))
             (combine (seq start (List.length l)) l)) = l.
Proof.
  induction l as [|x l IH]; intro start; [reflexivity|].
  simpl. rewrite IH. reflexivity.
Qed.

Lemma leaf_nodes_hash (l : list string) : map hash (leaf_nodes l) = l.
Proof. apply leaf_nodes_hash_from. Qed.

Lemma single_of_len_1 (A : Type) (l : list A) :
  len l = 1 -> exists a, l = [a].
Proof.
  destruct l as [|a [|b l]]; unfold len; simpl; intros H; try lia.
  exists a. reflexivity.
Qed.

(** Construction from a non-empty list returns a built tree. *)
Lemma init_built (x : string) (xs : list string) :
  exists t, __init__ (x :: xs) = Ok t /\ built (x :: xs) t.
Proof.
  unfold __init__, _build_tree.
  cbn [leaves tree].
  set (lvl := leaf_nodes (map _hash (x :: xs))).
  assert (Hpos : 0 < len lvl).
  { unfold lvl. rewrite leaf_nodes_len. simpl map. rewrite len_cons.
    pose proof (len_nonneg (map _hash xs)). lia. }
  destruct (@build_loop_chain (S (List.length lvl)) ([] ++ [lvl]) lvl)
    as [rest [Hrun Hch]].
  - unfold len. lia.
  - lia.
  - rewrite Hrun.
    destruct (single_of_len_1 _ (chain_last_single Hch Hpos)) as [r Hr].
    rewrite Hr. cbn.
    eexists. split; [reflexivity|].
    apply built_intro; assumption.
Qed.

End Construction.

(* ================================================================== *)
(** ** Proof generation *)
(* ================================================================== *)

Section Generation.

Import MerkleTree.

(** One pass of the body of the [for] loop of [generate_proof], for a
    position inside the level: it raises nothing and appends at most one
    sibling hash. *)
Lemma proof_step_ok (cur : list MerkleNode) (acc : list string) (idx : Z) :
  0 <= idx < len cur ->
  exists ext,
    (if idx mod 2 =? 1 then
       if idx - 1 >=? 0 then
         s <- getitem cur (idx - 1) ;; Ok (acc ++ [hash s])
       else Ok acc
     else
       if idx + 1 <? len cur then
         s <- getitem cur (idx + 1) ;; Ok (acc ++ [hash s])
       else Ok acc) = Ok (acc ++ ext)
    /\ (List.length ext <= 1)%nat
    /\ (Z.even (len cur) = true -> List.length ext = 1%nat).
Proof.
  intros Hidx.
  destruct (idx mod 2 =? 1) eqn:Hodd.
  - apply Z.eqb_eq in Hodd.
    assert (Hs : 0 <= idx - 1 < len cur) by (Z.div_mod_to_equations; lia).
    assert (Hge : (idx - 1 >=? 0) = true) by (apply Z.geb_le; lia).
    rewrite Hge.
    destruct (getitem_in_range cur Hs) as [s [Hget _]].
    rewrite Hget. simpl. exists [hash s]. repeat split; auto.
  - apply Z.eqb_neq in Hodd.
    destruct (idx + 1 <? len cur) eqn:Hlt.
    + apply Z.ltb_lt in Hlt.
      assert (Hs : 0 <= idx + 1 < len cur) by lia.
      destruct (getitem_in_range cur Hs) as [s [Hget _]].
      rewrite Hget. simpl. exists [hash s]. repeat split; auto.
    + apply Z.ltb_ge in Hlt.
      exists []. rewrite app_nil_r. repeat split; auto.
      intros Hev. exfalso.
      rewrite Z.even_spec in Hev. destruct Hev as [k Hk].
      Z.div_mod_to_equations. lia.
Qed.

(** Over a chain of levels the loop raises nothing; it appends at most
    one hash per level below the top, and exactly one where every such
    level has an even number of nodes. *)
Lemma proof_loop_ok (cur : list MerkleNode) rest :
  chain cur rest ->
  forall idx acc,
    0 <= idx < len cur ->
    exists ext,
      proof_loop (removelast (cur :: rest)) acc idx = Ok (acc ++ ext)
      /\ (List.length ext <= List.length rest)%nat
      /\ (Forall (fun l => Z.even (len l) = true)
                 (removelast (cur :: rest)) ->
          List.length ext = List.length rest).
Proof.
  induction 1 as [cur Hle | cur rest Hlt Hch IH]; intros idx acc Hidx.
  - exists []. rewrite app_nil_r. simpl. repeat split; auto.
  - rewrite removelast_cons2.
    cbn [proof_loop].
    destruct (proof_step_ok cur acc Hidx) as [e1 [Hstep [Hl1 Hev1]]].
    rewrite Hstep. cbn [bind].
    assert (Hnext : 0 <= idx / 2 < len (next_level cur)).
    { rewrite next_level_len. Z.div_mod_to_equations. lia. }
    destruct (IH (idx / 2) (acc ++ e1) Hnext) as [e2 [Hrun [Hl2 Hev2]]].
    exists (e1 ++ e2). rewrite Hrun, <- app_assoc.
    split; [reflexivity|]. rewrite length_app. simpl List.length.
    split; [lia|].
    intros Hall. inversion Hall as [|? ? Hhd Htl]; subst.
    rewrite (Hev1 Hhd), (Hev2 Htl). reflexivity.
Qed.

(** On a built tree, [generate_proof] at a valid index returns a proof
    that carries the leaf at that index, the root hash and the index,
    with at most one sibling per level below the root. *)
Lemma generate_proof_built (data : list string) (t : MerkleTree.t) (i : Z) :
  built data t ->
  0 <= i < len data ->
  exists siblings l r,
    generate_proof t i = Ok (MerkleProof.mk siblings l r i)
    /\ get_root_hash t = Ok r
    /\ nth_error (leaves t) (Z.to_nat i) = Some l
    /\ proof_loop (removelast (tree t)) [] i = Ok siblings
    /\ (List.length siblings <= List.length (tree t) - 1)%nat.
Proof.
  intros Hb Hi. destruct Hb as [rest r Hch Hlast].
  unfold generate_proof. cbn [leaves tree root].
  assert (Hlen : len (map _hash data) = len data)
    by (unfold len; rewrite length_map; reflexivity).
  assert (Hguard : (i <? 0) || (i >=? len (map _hash data)) = false).
  { rewrite Hlen. apply orb_false_iff. split.
    - apply Z.ltb_ge. lia.
    - destruct (Z.geb_spec i (len data)); [lia | reflexivity]. }
  rewrite Hguard.
  assert (Hi' : 0 <= i < len (leaf_nodes (map _hash data)))
    by (rewrite leaf_nodes_len, Hlen; exact Hi).
  destruct (proof_loop_ok Hch [] Hi') as [ext [Hrun [Hl _]]].
  simpl app in Hrun. rewrite Hrun. cbn [bind].
  assert (Hi2 : 0 <= i < len (map _hash data)) by (rewrite Hlen; exact Hi).
  destruct (getitem_in_range (map _hash data) Hi2) as [l [Hget Hnth]].
  rewrite Hget. cbn [bind].
  unfold get_root_hash. cbn [root bind].
  exists ext, l, (hash r). repeat split; auto.
  simpl List.length. lia.
Qed.

End Generation.

(* ================================================================== *)
(** ** Construction, root retrieval and small trees *)
(* ================================================================== *)

(** C7: building a [MerkleTree] from the empty list raises the
    "Cannot build tree with empty data" error, and building one from any
    non-empty list returns a tree (so it raises neither that error nor any
    other). *)
Theorem init_empty_raises_nonempty_returns :
  MerkleTree.__init__ [] = Raise (ValueError "Cannot build tree with empty data")
  /\ forall (x : string) (xs : list string),
       exists t, MerkleTree.__init__ (x :: xs) = Ok t.
Proof.
  split; [reflexivity|].
  intros x xs. destruct (init_built x xs) as [t [Ht _]].
  exists t. exact Ht.
Qed.

(** C9: after a successful construction the "Tree not built" branch of
    [get_root_hash] is not taken: for every non-empty list of records the
    constructor returns a tree whose [root] attribute is the single node of
    its top level, and [get_root_hash] returns that node's hash. *)
Theorem get_root_hash_after_init :
  forall (x : string) (xs : list string),
    exists t r,
      MerkleTree.__init__ (x :: xs) = Ok t
      /\ MerkleTree.root t = Some r
      /\ last (MerkleTree.tree t) [] = [r]
      /\ MerkleTree.get_root_hash t = Ok (hash r).
Proof.
  intros x xs. destruct (init_built x xs) as [t [Ht Hb]].
  destruct Hb as [rest r Hch Hlast].
  eexists. exists r. split; [exact Ht|].
  cbn [MerkleTree.root MerkleTree.tree].
  split; [reflexivity|]. split.
  - rewrite last_cons. exact Hlast.
  - reflexivity.
Qed.

(** C6: a tree built from exactly one record has that record's hash as
    root hash, has exactly one level, and [generate_proof(0)] returns a
    proof with an empty sibling list (leaf and root both the record's
    hash). *)
Theorem single_leaf_tree :
  forall A : string,
    exists t,
      MerkleTree.__init__ [A] = Ok t
      /\ MerkleTree.get_root_hash t = Ok (MerkleTree._hash A)
      /\ List.length (MerkleTree.tree t) = 1%nat
      /\ MerkleTree.generate_proof t 0
         = Ok (MerkleProof.mk [] (MerkleTree._hash A) (MerkleTree._hash A) 0).
Proof.
  intros A. eexists. split; [reflexivity|].
  repeat split.
Qed.

(** C3: for a tree built from exactly three records A, B, C with leaf
    hashes a, b, c, the levels are [a; b; c], then [hash(a+b); hash(c+c)],
    then the root alone, and the root hash is
    hash(hash(a+b) + hash(c+c)). *)
Theorem three_leaf_tree :
  forall A B C : string,
    let H := MerkleTree._hash in
    let a := H A in
    let b := H B in
    let c := H C in
    exists t,
      MerkleTree.__init__ [A; B; C] = Ok t
      /\ map (map hash) (MerkleTree.tree t)
         = [ [a; b; c];
             [H (String.append a b); H (String.append c c)];
             [H (String.append (H (String.append a b))
                               (H (String.append c c)))] ]
      /\ MerkleTree.get_root_hash t
         = Ok (H (String.append (H (String.append a b))
                                (H (String.append c c)))).
Proof.
  intros A B C H a b c. eexists. split; [reflexivity|].
  split; reflexivity.
Qed.

(** C10: on a proof with an empty sibling list, [verify_proof] returns
    true exactly when the leaf hash equals the claimed root, whatever the
    index; so the root itself with no sibling verifies at every index. *)
Theorem verify_proof_no_siblings :
  forall (l r : string) (i : Z),
    (MerkleTree.verify_proof (MerkleProof.mk [] l r i) = true <-> l = r)
    /\ MerkleTree.verify_proof (MerkleProof.mk [] r r i) = true.
Proof.
  intros l r i. unfold MerkleTree.verify_proof. cbn. split.
  - apply String.eqb_eq.
  - apply String.eqb_refl.
Qed.

(* ================================================================== *)
(** ** Index check and length of generated proofs *)
(* ================================================================== *)

(** C8: on a tree built from a non-empty list of records,
    [generate_proof(index)] raises the "Invalid leaf index" error if and
    only if [index] is outside [0, leaf_count), and for every index inside
    that range it returns a proof. *)
Theorem generate_proof_index_check :
  forall (x : string) (xs : list string) (i : Z),
    exists t,
      MerkleTree.__init__ (x :: xs) = Ok t
      /\ len (MerkleTree.leaves t) = len (x :: xs)
      /\ (MerkleTree.generate_proof t i = Raise (ValueError "Invalid leaf index")
          <-> ~ (0 <= i < len (MerkleTree.leaves t)))
      /\ (0 <= i < len (MerkleTree.leaves t) ->
          exists p, MerkleTree.generate_proof t i = Ok p).
Proof.
  intros x xs i. destruct (init_built x xs) as [t [Ht Hb]].
  exists t. split; [exact Ht|].
  assert (Hlen : len (MerkleTree.leaves t) = len (x :: xs)).
  { destruct Hb. cbn [MerkleTree.leaves]. unfold len.
    rewrite length_map. reflexivity. }
  split; [exact Hlen|].
  assert (Hin : 0 <= i < len (MerkleTree.leaves t) ->
                exists p, MerkleTree.generate_proof t i = Ok p).
  { intros Hi. rewrite Hlen in Hi.
    destruct (generate_proof_built Hb Hi) as [s [l [r [Hg _]]]].
    eexists. exact Hg. }
  split; [|exact Hin].
  split.
  - intros Hraise Hi. destruct (Hin Hi) as [p Hp].
    rewrite Hp in Hraise. discriminate.
  - intros Hout. unfold MerkleTree.generate_proof.
    destruct ((i <? 0) || (i >=? len (MerkleTree.leaves t))) eqn:Hg;
      [reflexivity|].
    exfalso. apply Hout. apply orb_false_iff in Hg. destruct Hg as [H1 H2].
    apply Z.ltb_ge in H1.
    destruct (Z.geb_spec i (len (MerkleTree.leaves t))); [discriminate|lia].
Qed.

(** C2, as the claim states it, fails: in the tree of the three records
    "A", "B", "C", which has 3 levels, the proof of leaf 2 has one sibling,
    not two. *)
Lemma proof_length_three_leaves :
  exists t p,
    MerkleTree.__init__ ["A"; "B"; "C"] = Ok t
    /\ MerkleTree.generate_proof t 2 = Ok p
    /\ List.length (MerkleTree.tree t) = 3%nat
    /\ List.length (MerkleProof.proof p) = 1%nat
    /\ List.length (MerkleProof.proof p)
       <> (List.length (MerkleTree.tree t) - 1)%nat.
Proof.
  eexists. eexists.
  split; [reflexivity|].
  split; [reflexivity|].
  repeat split. cbn. discriminate.
Qed.

(** A level list whose leaf level has [2^k] nodes has only levels of even
    size below its top. *)
Lemma chain_pow2_even (cur : list MerkleNode) rest :
  chain cur rest ->
  forall k : Z,
    0 <= k -> len cur = 2 ^ k ->
    Forall (fun l => Z.even (len l) = true) (removelast (cur :: rest)).
Proof.
  induction 1 as [cur Hle | cur rest Hlt Hch IH]; intros k Hk Hlen.
  - constructor.
  - rewrite removelast_cons2.
    assert (Hk1 : 0 < k).
    { destruct (Z.eq_dec k 0) as [->|]; [|lia]. simpl in Hlen. lia. }
    assert (Hpow : 2 ^ k = 2 * 2 ^ (k - 1)).
    { rewrite <- Z.pow_succ_r by lia. f_equal. lia. }
    constructor.
    + rewrite Hlen, Hpow. rewrite Z.even_mul. reflexivity.
    + apply (IH (k - 1)); [lia|].
      rewrite next_level_len, Hlen, Hpow.
      Z.div_mod_to_equations. lia.
Qed.

(** C2, amended: for every non-empty list of records and every valid
    leaf index, the sibling list of the generated proof has at most
    (number of levels - 1) entries; it has exactly that many when every
    level below the root has an even number of nodes, which is the case
    whenever the number of records is a power of two. *)
Theorem proof_length_bound :
  forall (x : string) (xs : list string) (i : Z),
    0 <= i < len (x :: xs) ->
    exists t p,
      MerkleTree.__init__ (x :: xs) = Ok t
      /\ MerkleTree.generate_proof t i = Ok p
      /\ (List.length (MerkleProof.proof p)
          <= List.length (MerkleTree.tree t) - 1)%nat
      /\ (Forall (fun l => Z.even (len l) = true)
                 (removelast (MerkleTree.tree t)) ->
          List.length (MerkleProof.proof p)
          = (List.length (MerkleTree.tree t) - 1)%nat)
      /\ (forall k : Z, 0 <= k -> len (x :: xs) = 2 ^ k ->
          List.length (MerkleProof.proof p)
          = (List.length (MerkleTree.tree t) - 1)%nat).
Proof.
  intros x xs i Hi. destruct (init_built x xs) as [t [Ht Hb]].
  destruct (generate_proof_built Hb Hi)
    as [s [l [r [Hg [_ [_ [Hloop Hle]]]]]]].
  exists t. eexists. split; [exact Ht|]. split; [exact Hg|].
  cbn [MerkleProof.proof]. split; [exact Hle|].
  destruct Hb as [rest r0 Hch Hlast].
  cbn [MerkleTree.tree] in *.
  assert (Hi' : 0 <= i < len (MerkleTree.leaf_nodes
                                (map MerkleTree._hash (x :: xs)))).
  { rewrite leaf_nodes_len. unfold len. rewrite length_map. exact Hi. }
  destruct (proof_loop_ok Hch [] Hi') as [ext [Hrun [_ Heven]]].
  simpl app in Hrun. rewrite Hrun in Hloop. injection Hloop as <-.
  assert (Hall : Forall (fun l => Z.even (len l) = true)
                   (removelast (MerkleTree.leaf_nodes
                                  (map MerkleTree._hash (x :: xs)) :: rest)) ->
                 List.length ext = (List.length
                   (MerkleTree.leaf_nodes
                      (map MerkleTree._hash (x :: xs)) :: rest) - 1)%nat).
  { intros Hall. rewrite (Heven Hall). simpl List.length. lia. }
  split; [exact Hall|].
  intros k Hk Hpow. apply Hall.
  apply (chain_pow2_even Hch Hk).
  rewrite leaf_nodes_len. unfold len. rewrite length_map. exact Hpow.
Qed.

Lemma proof_length_bound_witness :
  exists t p,
    MerkleTree.__init__ ["A"; "B"; "C"; "D"] = Ok t
    /\ MerkleTree.generate_proof t 3 = Ok p
    /\ (List.length (MerkleProof.proof p)
        <= List.length (MerkleTree.tree t) - 1)%nat
    /\ (Forall (fun l => Z.even (len l) = true)
               (removelast (MerkleTree.tree t)) ->
        List.length (MerkleProof.proof p)
        = (List.length (MerkleTree.tree t) - 1)%nat)
    /\ (forall k : Z, 0 <= k -> len ["A"; "B"; "C"; "D"] = 2 ^ k ->
        List.length (MerkleProof.proof p)
        = (List.length (MerkleTree.tree t) - 1)%nat).
Proof.
  apply (@proof_length_bound "A" ["B"; "C"; "D"] 3).
  unfold len. simpl. lia.
Defined.

(* ================================================================== *)
(** ** Generation followed by verification *)
(* ================================================================== *)

(** C1, at the input the claim singles out: in the tree of the three
    records "A", "B", "C", [generate_proof(2)] returns a proof (its only
    sibling is hash(a+b); the level where leaf 2 has no partner adds
    nothing), and [verify_proof] returns false on it: it computes
    hash(c + hash(a+b)), where the root is hash(hash(a+b) + hash(c+c)). *)
Theorem roundtrip_three_leaves_index_2 :
  exists t p,
    MerkleTree.__init__ ["A"; "B"; "C"] = Ok t
    /\ MerkleTree.generate_proof t 2 = Ok p
    /\ MerkleProof.proof p
       = [sha256_hex (String.append (sha256_hex "A") (sha256_hex "B"))]
    /\ MerkleProof.leaf p = sha256_hex "C"
    /\ MerkleTree.get_root_hash t = Ok (MerkleProof.root p)
    /\ MerkleTree.verify_proof p = false.
Proof.
  eexists. eexists.
  split; [reflexivity|].
  split; [reflexivity|].
  split; [reflexivity|].
  split; [reflexivity|].
  split; [reflexivity|].
  unfold MerkleTree.verify_proof. cbn. digests. reflexivity.
Qed.

(* ================================================================== *)
(** ** Tampering with a proof *)
(* ================================================================== *)

Section Tampering.

Import MerkleTree.

Lemma append_length (a b : string) :
  String.length (String.append a b)
  = (String.length a + String.length b)%nat.
Proof. induction a as [|c a IH]; simpl; [reflexivity | rewrite IH; reflexivity]. Qed.

Lemma append_inj_l (s a b : string) :
  String.append s a = String.append s b -> a = b.
Proof.
  induction s as [|c s IH]; simpl; intros H; [exact H|].
  injection H as H. exact (IH H).
Qed.

Lemma append_inj_r (s : string) :
  forall a b, String.append a s = String.append b s -> a = b.
Proof.
  induction a as [|c a IH]; destruct b as [|d b]; simpl; intros H.
  - reflexivity.
  - apply (f_equal String.length) in H. simpl in H.
    rewrite append_length in H. lia.
  - apply (f_equal String.length) in H. simpl in H.
    rewrite append_length in H. lia.
  - injection H as Hc H. rewrite Hc, (IH b H). reflexivity.
Qed.

Lemma verify_loop_cons s sibs c idx :
  verify_loop (s :: sibs) c idx
  = verify_loop sibs (sha256_hex (combined s c idx)) (idx / 2).
Proof. reflexivity. Qed.

Lemma combined_inj_computed s c c' idx :
  combined s c idx = combined s c' idx -> c = c'.
Proof.
  unfold combined. destruct (idx mod 2 =? 1).
  - apply append_inj_l.
  - apply append_inj_r.
Qed.

Lemma combined_inj_sibling s s' c idx :
  combined s c idx = combined s' c idx -> s = s'.
Proof.
  unfold combined. destruct (idx mod 2 =? 1).
  - apply append_inj_r.
  - apply append_inj_l.
Qed.

(** Two runs of the loop over the same siblings and index that start
    from different hashes and end on the same hash exhibit a
    collision. *)
Lemma verify_loop_start_collision (sibs : list string) :
  forall c c' idx,
    c <> c' ->
    verify_loop sibs c idx = verify_loop sibs c' idx ->
    sha256_collision.
Proof.
  induction sibs as [|s sibs IH]; intros c c' idx Hne Heq.
  - simpl in Heq. contradiction.
  - rewrite !verify_loop_cons in Heq.
    destruct (string_dec (sha256_hex (combined s c idx))
                         (sha256_hex (combined s c' idx))) as [Hh|Hh].
    + exists (combined s c idx), (combined s c' idx). split; [|exact Hh].
      intros Hc. apply Hne. eapply combined_inj_computed. exact Hc.
    + eapply IH; eassumption.
Qed.

(** The same when one sibling has been replaced. *)
Lemma verify_loop_sibling_collision (sibs : list string) :
  forall k s s' c idx,
    nth_error sibs k = Some s ->
    s' <> s ->
    verify_loop (set_nth k s' sibs) c idx = verify_loop sibs c idx ->
    sha256_collision.
Proof.
  induction sibs as [|x sibs IH]; intros k s s' c idx Hnth Hne Heq.
  - destruct k; discriminate.
  - destruct k as [|k].
    + simpl in Hnth. injection Hnth as ->.
      simpl set_nth in Heq. rewrite !verify_loop_cons in Heq.
      destruct (string_dec (sha256_hex (combined s' c idx))
                           (sha256_hex (combined s c idx))) as [Hh|Hh].
      * exists (combined s' c idx), (combined s c idx). split; [|exact Hh].
        intros Hc. apply Hne. eapply combined_inj_sibling. exact Hc.
      * eapply verify_loop_start_collision; eassumption.
    + simpl in Hnth. simpl set_nth in Heq.
      rewrite !verify_loop_cons in Heq.
      eapply IH; eassumption.
Qed.

(** The loop reads only the [len(siblings)] low bits of the index. *)
Lemma verify_loop_index_low_bits (sibs : list string) :
  forall c i i',
    i' mod 2 ^ len sibs = i mod 2 ^ len sibs ->
    verify_loop sibs c i' = verify_loop sibs c i.
Proof.
  induction sibs as [|s sibs IH]; intros c i i' Hmod; [reflexivity|].
  rewrite len_cons in Hmod.
  pose proof (len_nonneg sibs) as Hn.
  rewrite Z.pow_add_r, Z.pow_1_r, Z.mul_comm in Hmod by lia.
  assert (Hp : 0 < 2 ^ len sibs) by (apply Z.pow_pos_nonneg; lia).
  rewrite !Z.rem_mul_r in Hmod by lia.
  assert (Hbit : i' mod 2 = i mod 2 /\
                 (i' / 2) mod 2 ^ len sibs = (i / 2) mod 2 ^ len sibs).
  { pose proof (Z.mod_pos_bound i 2 ltac:(lia)).
    pose proof (Z.mod_pos_bound i' 2 ltac:(lia)).
    lia. }
  destruct Hbit as [Hb Hrest].
  rewrite !verify_loop_cons. unfold combined. rewrite Hb.
  apply IH. exact Hrest.
Qed.

End Tampering.

(* ================================================================== *)
(** ** Where generation and verification agree *)
(* ================================================================== *)

Section Roundtrip.

Import MerkleTree.

(** The parent of the pair at positions [2j], [2j+1]. *)
Lemma next_level_nth (cur : list MerkleNode) :
  forall (j : nat) (a b : MerkleNode),
    nth_error cur (2 * j) = Some a ->
    nth_error cur (2 * j + 1) = Some b ->
    exists p,
      nth_error (next_level cur) j = Some p
      /\ hash p = sha256_hex (String.append (hash a) (hash b)).
Proof.
  induction cur as [| x | x y l IH] using list_pair_ind; intros j a b Ha Hb.
  - destruct j; discriminate.
  - replace (2 * j + 1)%nat with (S (2 * j)) in Hb by lia.
    destruct (2 * j)%nat; discriminate.
  - destruct j as [|j].
    + simpl in Ha, Hb. injection Ha as ->. injection Hb as ->.
      eexists. split; reflexivity.
    + replace (2 * S j)%nat with (S (S (2 * j))) in Ha by lia.
      replace (2 * S j + 1)%nat with (S (S (2 * j + 1))) in Hb by lia.
      cbn [nth_error] in Ha, Hb.
      destruct (IH j a b Ha Hb) as [p [Hp Hh]].
      exists p. split; [exact Hp | exact Hh].
Qed.

Lemma nth_error_in_len (A : Type) (l : list A) (k : nat) (a : A) :
  nth_error l k = Some a -> Z.of_nat k < len l.
Proof.
  intros H. assert (Hk : (k < List.length l)%nat).
  { apply nth_error_Some. rewrite H. discriminate. }
  unfold len. lia.
Qed.

Lemma proof_loop_cons (cur : list MerkleNode) levels acc idx :
  proof_loop (cur :: levels) acc idx
  = (proof' <- proof_loop [cur] acc idx ;;
     proof_loop levels proof' (idx / 2)).
Proof.
  cbn [proof_loop].
  destruct (idx mod 2 =? 1).
  - destruct (idx - 1 >=? 0); [|reflexivity].
    destruct (getitem cur (idx - 1)); reflexivity.
  - destruct (idx + 1 <? len cur); [|reflexivity].
    destruct (getitem cur (idx + 1)); reflexivity.
Qed.

(** On a level of even size, the loop body appends the hash of the
    partner of the current node, and what [verify_proof] hashes at that
    step is what [_build_tree] hashed for their parent. *)
Lemma proof_step_pair (cur : list MerkleNode) acc idx (n : MerkleNode) :
  Z.even (len cur) = true ->
  0 <= idx ->
  nth_error cur (Z.to_nat idx) = Some n ->
  exists s a b,
    proof_loop [cur] acc idx = Ok (acc ++ [hash s])
    /\ nth_error cur (2 * Z.to_nat (idx / 2)) = Some a
    /\ nth_error cur (2 * Z.to_nat (idx / 2) + 1) = Some b
    /\ combined (hash s) (hash n) idx = String.append (hash a) (hash b).
Proof.
  intros Hev Hidx Hn.
  pose proof (nth_error_in_len _ _ Hn) as Hlt.
  rewrite Z2Nat.id in Hlt by lia.
  rewrite Z.even_spec in Hev. destruct Hev as [h Hh].
  cbn [proof_loop]. unfold combined.
  destruct (idx mod 2 =? 1) eqn:Hodd.
  - apply Z.eqb_eq in Hodd.
    assert (Hs : 0 <= idx - 1 < len cur) by (Z.div_mod_to_equations; lia).
    assert (Hge : (idx - 1 >=? 0) = true) by (apply Z.geb_le; lia).
    rewrite Hge.
    destruct (getitem_in_range cur Hs) as [s [Hget Hsn]].
    rewrite Hget. cbn [bind].
    exists s, s, n. split; [reflexivity|].
    assert (E1 : (2 * Z.to_nat (idx / 2))%nat = Z.to_nat (idx - 1))
      by (Z.div_mod_to_equations; lia).
    assert (E2 : (2 * Z.to_nat (idx / 2) + 1)%nat = Z.to_nat idx)
      by (Z.div_mod_to_equations; lia).
    rewrite E2, E1. repeat split; assumption.
  - apply Z.eqb_neq in Hodd.
    assert (Hs : 0 <= idx + 1 < len cur) by (Z.div_mod_to_equations; lia).
    assert (Hltb : (idx + 1 <? len cur) = true) by (apply Z.ltb_lt; lia).
    rewrite Hltb.
    destruct (getitem_in_range cur Hs) as [s [Hget Hsn]].
    rewrite Hget. cbn [bind].
    exists s, n, s. split; [reflexivity|].
    assert (E1 : (2 * Z.to_nat (idx / 2))%nat = Z.to_nat idx)
      by (Z.div_mod_to_equations; lia).
    assert (E2 : (2 * Z.to_nat (idx / 2) + 1)%nat = Z.to_nat (idx + 1))
      by (Z.div_mod_to_equations; lia).
    rewrite E2, E1. repeat split; assumption.
Qed.

(** Along a chain whose levels below the top are all of even size, the
    siblings collected from a node lead [verify_loop] from that node's
    hash to the hash of the top node. *)
Lemma roundtrip_chain (cur : list MerkleNode) rest :
  chain cur rest ->
  forall idx n acc,
    Forall (fun l => Z.even (len l) = true) (removelast (cur :: rest)) ->
    0 <= idx ->
    nth_error cur (Z.to_nat idx) = Some n ->
    exists ext r,
      proof_loop (removelast (cur :: rest)) acc idx = Ok (acc ++ ext)
      /\ last rest cur = [r]
      /\ verify_loop ext (hash n) idx = hash r.
Proof.
  induction 1 as [cur Hle | cur rest Hlt Hch IH];
    intros idx n acc Hall Hidx Hn.
  - pose proof (nth_error_in_len _ _ Hn) as Hk.
    destruct cur as [|x [|y cur]].
    + destruct (Z.to_nat idx); discriminate.
    + assert (Z.to_nat idx = 0%nat) by (unfold len in Hk; simpl in Hk; lia).
      rewrite H in Hn. simpl in Hn. injection Hn as ->.
      exists [], n. rewrite app_nil_r. repeat split.
    + unfold len in Hle. simpl in Hle. lia.
  - rewrite removelast_cons2 in Hall |- *.
    apply Forall_cons_iff in Hall. destruct Hall as [Hev Htl].
    destruct (@proof_step_pair cur acc idx n Hev Hidx Hn)
      as [s [a [b [Hstep [Ha [Hb Hcomb]]]]]].
    destruct (@next_level_nth cur _ a b Ha Hb) as [p [Hp Hhash]].
    assert (Hidx2 : 0 <= idx / 2) by (Z.div_mod_to_equations; lia).
    destruct (IH (idx / 2) p (acc ++ [hash s]) Htl Hidx2 Hp)
      as [ext [r [Hrun [Hlast Hver]]]].
    exists (hash s :: ext), r.
    rewrite proof_loop_cons, Hstep. cbn [bind].
    rewrite Hrun, <- app_assoc. split; [reflexivity|].
    rewrite last_cons. split; [exact Hlast|].
    rewrite verify_loop_cons, Hcomb, <- Hhash. exact Hver.
Qed.

End Roundtrip.




(* ================================================================== *)
(** ** End-to-end verification *)
(* ================================================================== *)


(** The full result is reached: with two confirmed donations in the
    store and the proof generated for the second one, every check
    succeeds. *)
Example verify_donation_inclusion_two_donations :
  let d1 := Donation.mk 1 "0xaa" "10.00" 1700000000 "0x01" in
  let d2 := Donation.mk 2 "0xbb" "2.50" 1700000100 "0x02" in
  let store : Store := fun _ => Ok [d1; d2] in
  exists t p d,
    create_charity_merkle_tree store 7 = Some t
    /\ DonationMerkleTree.generate_donation_proof t 2 = Ok (Some p)
    /\ MerkleProof.index p = 1
    /\ verify_donation_inclusion store 7
         (Payload.mk (Some (MerkleProof.proof p)) (Some (MerkleProof.leaf p))
                     (Some (MerkleProof.root p)) (Some (MerkleProof.index p)))
       = Ok d
    /\ dict_get d "proof_valid" = Some (PBool true)
    /\ dict_get d "root_matches" = Some (PBool true)
    /\ dict_get d "verified" = Some (PBool true).
Proof.
  intros d1 d2 store.
  eexists. eexists. eexists.
  split; [reflexivity|].
  split; [reflexivity|].
  split; [reflexivity|].
  split.
  - unfold verify_donation_inclusion, verify_donation_inclusion_try.
    cbn. digests. cbn. reflexivity.
  - split; [reflexivity|]. split; reflexivity.
Qed.

(* ================================================================== *)
(** ** Trees without a partnerless node *)
(* ================================================================== *)

(** X1: on a tree in which every level below the root has an even number
    of nodes, in particular on a tree over [2^k] records, the proof
    generated for any valid index verifies. *)
Theorem roundtrip_even_levels :
  forall (x : string) (xs : list string) (i : Z),
    0 <= i < len (x :: xs) ->
    exists t p,
      MerkleTree.__init__ (x :: xs) = Ok t
      /\ MerkleTree.generate_proof t i = Ok p
      /\ MerkleTree.get_root_hash t = Ok (MerkleProof.root p)
      /\ (Forall (fun l => Z.even (len l) = true)
                 (removelast (MerkleTree.tree t)) ->
          MerkleTree.verify_proof p = true)
      /\ (forall k : Z, 0 <= k -> len (x :: xs) = 2 ^ k ->
          MerkleTree.verify_proof p = true).
Proof.
  intros x xs i Hi. destruct (init_built x xs) as [t [Ht Hb]].
  destruct (generate_proof_built Hb Hi)
    as [sibs [l [r [Hg [Hroot [Hleaf [Hloop _]]]]]]].
  exists t. eexists. split; [exact Ht|]. split; [exact Hg|].
  cbn [MerkleProof.root]. split; [exact Hroot|].
  destruct Hb as [rest r0 Hch Hlast].
  cbn [MerkleTree.tree MerkleTree.leaves] in *.
  set (lvl := MerkleTree.leaf_nodes (map MerkleTree._hash (x :: xs))) in *.
  assert (Hr : r = hash r0).
  { unfold MerkleTree.get_root_hash in Hroot. cbn in Hroot.
    injection Hroot as <-. reflexivity. }
  assert (Hn : exists n, nth_error lvl (Z.to_nat i) = Some n /\ hash n = l).
  { rewrite <- (leaf_nodes_hash (map MerkleTree._hash (x :: xs))) in Hleaf.
    fold lvl in Hleaf. rewrite nth_error_map in Hleaf.
    destruct (nth_error lvl (Z.to_nat i)) as [n|]; [|discriminate].
    exists n. split; [reflexivity|]. simpl in Hleaf. congruence. }
  destruct Hn as [n [Hn Hl]].
  assert (Hall : Forall (fun l => Z.even (len l) = true)
                        (removelast (lvl :: rest)) ->
                 MerkleTree.verify_proof (MerkleProof.mk sibs l r i) = true).
  { intros Hall.
    destruct (@roundtrip_chain lvl rest Hch i n [] Hall (proj1 Hi) Hn)
      as [ext [r1 [Hrun [Hlast1 Hver]]]].
    simpl app in Hrun. rewrite Hrun in Hloop. injection Hloop as <-.
    rewrite Hlast in Hlast1. injection Hlast1 as <-.
    unfold MerkleTree.verify_proof. cbn.
    apply String.eqb_eq. rewrite <- Hl, Hver, Hr. reflexivity. }
  split; [exact Hall|].
  intros k Hk Hpow. apply Hall.
  apply (chain_pow2_even Hch Hk).
  unfold lvl. rewrite leaf_nodes_len. unfold len. rewrite length_map.
  exact Hpow.
Qed.

Lemma roundtrip_even_levels_witness :
  exists t p,
    MerkleTree.__init__ ["A"; "B"; "C"; "D"] = Ok t
    /\ MerkleTree.generate_proof t 2 = Ok p
    /\ MerkleTree.get_root_hash t = Ok (MerkleProof.root p)
    /\ (Forall (fun l => Z.even (len l) = true)
               (removelast (MerkleTree.tree t)) ->
        MerkleTree.verify_proof p = true)
    /\ (forall k : Z, 0 <= k -> len ["A"; "B"; "C"; "D"] = 2 ^ k ->
        MerkleTree.verify_proof p = true).
Proof.
  apply (@roundtrip_even_levels "A" ["B"; "C"; "D"] 2).
  unfold len. simpl. lia.
Defined.

(** X2, the end-to-end example: with two donations, the proof generated for
    the second one is the hash of the first donation's string as only
    sibling, the hash of the second one's string as leaf, index 1, and the
    root hash(hash(leaf1) + hash(leaf2)); it verifies. *)
Theorem two_donations_proof :
  forall (d1 d2 : Donation.t),
    Donation.id d1 <> Donation.id d2 ->
    let h1 := sha256_hex (DonationMerkleTree.donation_str d1) in
    let h2 := sha256_hex (DonationMerkleTree.donation_str d2) in
    exists t,
      DonationMerkleTree.__init__ [d1; d2] = Ok t
      /\ MerkleTree.get_root_hash (DonationMerkleTree.base t)
         = Ok (sha256_hex (String.append h1 h2))
      /\ DonationMerkleTree.generate_donation_proof t (Donation.id d2)
         = Ok (Some (MerkleProof.mk [h1] h2
                       (sha256_hex (String.append h1 h2)) 1))
      /\ MerkleTree.verify_proof
           (MerkleProof.mk [h1] h2 (sha256_hex (String.append h1 h2)) 1)
         = true.
Proof.
  intros d1 d2 Hid h1 h2.
  eexists. split; [reflexivity|].
  split; [reflexivity|].
  split.
  - unfold DonationMerkleTree.generate_donation_proof.
    cbn [DonationMerkleTree.donations DonationMerkleTree.find_index].
    apply Z.eqb_neq in Hid. rewrite Hid, Z.eqb_refl.
    reflexivity.
  - unfold MerkleTree.verify_proof. cbn. apply String.eqb_refl.
Qed.

Lemma two_donations_proof_witness :
  exists t,
    DonationMerkleTree.__init__
      [Donation.mk 1 "0xaa" "10.00" 1700000000 "0x01";
       Donation.mk 2 "0xbb" "2.50" 1700000100 "0x02"] = Ok t
    /\ DonationMerkleTree.generate_donation_proof t 2
       = Ok (Some (MerkleProof.mk
                     [sha256_hex "1:0xaa:10.00:1700000000:0x01"]
                     (sha256_hex "2:0xbb:2.50:1700000100:0x02")
                     (sha256_hex
                        (String.append
                           (sha256_hex "1:0xaa:10.00:1700000000:0x01")
                           (sha256_hex "2:0xbb:2.50:1700000100:0x02")))
                     1)).
Proof.
  destruct (@two_donations_proof
              (Donation.mk 1 "0xaa" "10.00" 1700000000 "0x01")
              (Donation.mk 2 "0xbb" "2.50" 1700000100 "0x02"))
    as [t [Ht [_ [Hp _]]]].
  - simpl. discriminate.
  - exists t. split; [exact Ht | exact Hp].
Defined.

(* ================================================================== *)
(** ** Shape of the tree *)
(* ================================================================== *)

Lemma log2_up_halve (m : Z) :
  1 < m -> Z.log2_up m = 1 + Z.log2_up ((m + 1) / 2).
Proof.
  intros Hm.
  destruct (Z.eq_dec m 2) as [->|Hm2]; [reflexivity|].
  assert (Hh : 1 < (m + 1) / 2) by (Z.div_mod_to_equations; lia).
  pose proof (Z.log2_up_spec _ Hh) as [Hlo Hhi].
  assert (Hpos : 0 < Z.log2_up ((m + 1) / 2)) by (apply Z.log2_up_pos; lia).
  set (k := Z.log2_up ((m + 1) / 2)) in *.
  assert (Hk : 2 ^ k = 2 * 2 ^ Z.pred k).
  { rewrite <- Z.pow_succ_r by lia. f_equal. lia. }
  apply Z.log2_up_unique; [lia|].
  replace (Z.pred (1 + k)) with k by lia.
  replace (1 + k) with (Z.succ k) by lia.
  rewrite Z.pow_succ_r by lia.
  split; Z.div_mod_to_equations; lia.
Qed.

(** The number of levels above a non-empty level, and how consecutive
    levels are related. *)
Lemma chain_shape (cur : list MerkleNode) rest :
  chain cur rest ->
  (0 < len cur -> len rest = Z.log2_up (len cur))
  /\ (forall k l l',
        nth_error (cur :: rest) k = Some l ->
        nth_error (cur :: rest) (S k) = Some l' ->
        l' = MerkleTree.next_level l).
Proof.
  induction 1 as [cur Hle | cur rest Hlt Hch [IHn IHk]].
  - split.
    + intros Hpos. replace (len cur) with 1 by lia. reflexivity.
    + intros k l l' _ Hk. destruct k; discriminate.
  - split.
    + intros _. rewrite len_cons, IHn, next_level_len.
      * rewrite (log2_up_halve Hlt). lia.
      * rewrite next_level_len. Z.div_mod_to_equations. lia.
    + intros k l l' Hl Hl'. destruct k as [|k].
      * simpl in Hl, Hl'. congruence.
      * exact (IHk k l l' Hl Hl').
Qed.

(** X3, the data model of the tree: for every non-empty list of records the
    tree has 1 + ceil(log2(leaf_count)) levels, level 0 holds the leaf
    hashes in input order, every further level is built from the one
    below by pairing and so has ceil(previous / 2) nodes, and the top
    level is the root alone. *)
Theorem tree_shape :
  forall (x : string) (xs : list string),
    exists t r,
      MerkleTree.__init__ (x :: xs) = Ok t
      /\ MerkleTree.leaves t = map MerkleTree._hash (x :: xs)
      /\ option_map (map hash) (nth_error (MerkleTree.tree t) 0)
         = Some (MerkleTree.leaves t)
      /\ len (MerkleTree.tree t) = 1 + Z.log2_up (len (x :: xs))
      /\ (forall k l l',
            nth_error (MerkleTree.tree t) k = Some l ->
            nth_error (MerkleTree.tree t) (S k) = Some l' ->
            l' = MerkleTree.next_level l /\ len l' = (len l + 1) / 2)
      /\ last (MerkleTree.tree t) [] = [r]
      /\ MerkleTree.root t = Some r.
Proof.
  intros x xs. destruct (init_built x xs) as [t [Ht Hb]].
  destruct Hb as [rest r Hch Hlast].
  eexists. exists r. split; [exact Ht|].
  cbn [MerkleTree.leaves MerkleTree.tree MerkleTree.root].
  split; [reflexivity|].
  split; [cbn [nth_error option_map]; rewrite leaf_nodes_hash; reflexivity|].
  destruct (chain_shape Hch) as [Hn Hk].
  assert (Hlen : len (MerkleTree.leaf_nodes (map MerkleTree._hash (x :: xs)))
                 = len (x :: xs)).
  { rewrite leaf_nodes_len. unfold len. rewrite length_map. reflexivity. }
  split.
  - rewrite len_cons, Hn, Hlen; [lia|].
    rewrite Hlen, len_cons. pose proof (len_nonneg xs). lia.
  - split.
    + intros k l l' Hl Hl'. rewrite (Hk k l l' Hl Hl').
      split; [reflexivity | apply next_level_len].
    + split; [|reflexivity]. rewrite last_cons. exact Hlast.
Qed.

(* ================================================================== *)
(** ** Format of a digest *)
(* ================================================================== *)

Section DigestFormat.

Lemma sha256_hex_eq (s : string) :
  sha256_hex s = SHA256.hexdigest (SHA256.bytes_of_string s).
Proof. reflexivity. Qed.

Lemma string_forall_append (P : ascii -> Prop) (a b : string) :
  Forall P (list_ascii_of_string a) ->
  Forall P (list_ascii_of_string b) ->
  Forall P (list_ascii_of_string (String.append a b)).
Proof.
  induction a as [|c a IH]; simpl; intros Ha Hb; [exact Hb|].
  inversion Ha; subst. constructor; auto.
Qed.

Lemma land_15_range (x : Z) : 0 <= Z.land x 15 < 16.
Proof.
  change 15 with (Z.ones 4). rewrite Z.land_ones by lia.
  apply Z.mod_pos_bound. reflexivity.
Qed.

Lemma hex_digit_is_hex (d : Z) :
  0 <= d < 16 -> is_hex_char (SHA256.hex_digit d) = true.
Proof.
  intros Hd.
  assert (H : d = 0 \/ d = 1 \/ d = 2 \/ d = 3 \/ d = 4 \/ d = 5 \/ d = 6
              \/ d = 7 \/ d = 8 \/ d = 9 \/ d = 10 \/ d = 11 \/ d = 12
              \/ d = 13 \/ d = 14 \/ d = 15) by lia.
  repeat (destruct H as [-> | H]; [reflexivity|]).
  rewrite H. reflexivity.
Qed.

Lemma hex_of_word_format (n : nat) :
  forall x,
    String.length (SHA256.hex_of_word n x) = n
    /\ Forall (fun c => is_hex_char c = true)
              (list_ascii_of_string (SHA256.hex_of_word n x)).
Proof.
  induction n as [|n IH]; intros x; simpl.
  - split; [reflexivity | constructor].
  - destruct (IH (Z.shiftr x 4)) as [Hl Hc]. split.
    + rewrite append_length, Hl. simpl. lia.
    + apply string_forall_append; [exact Hc|].
      simpl. constructor; [|constructor].
      apply hex_digit_is_hex, land_15_range.
Qed.

Lemma concat_format (P : ascii -> Prop) (n : nat) (l : list string) :
  Forall (fun s => String.length s = n
                   /\ Forall P (list_ascii_of_string s)) l ->
  String.length (String.concat "" l) = (n * List.length l)%nat
  /\ Forall P (list_ascii_of_string (String.concat "" l)).
Proof.
  induction l as [|s l IH]; intros Hall.
  - split; [simpl; lia | constructor].
  - inversion Hall as [|? ? [Hl Hc] Htl]; subst.
    destruct (IH Htl) as [IHl IHc].
    destruct l as [|s' l].
    + cbn [String.concat List.length]. split; [lia | exact Hc].
    + change (String.concat "" (s :: s' :: l))
        with (String.append s (String.concat "" (s' :: l))).
      split.
      * rewrite append_length, IHl. cbn [List.length]. lia.
      * apply string_forall_append; assumption.
Qed.

Lemma concat_words_format (ws : list Z) :
  String.length (String.concat "" (map (SHA256.hex_of_word 8) ws))
  = (8 * List.length ws)%nat
  /\ Forall (fun c => is_hex_char c = true)
            (list_ascii_of_string
               (String.concat "" (map (SHA256.hex_of_word 8) ws))).
Proof.
  rewrite <- (length_map (SHA256.hex_of_word 8) ws).
  apply concat_format.
  apply Forall_forall. intros s Hs.
  apply in_map_iff in Hs. destruct Hs as [w [<- _]].
  apply hex_of_word_format.
Qed.

Lemma compress_length (h block : list Z) :
  List.length h = 8%nat -> List.length (SHA256.compress h block) = 8%nat.
Proof.
  intros Hh. unfold SHA256.compress.
  rewrite length_map, length_combine, Hh. reflexivity.
Qed.

Lemma process_length (n : nat) :
  forall h ws,
    List.length h = 8%nat -> List.length (SHA256.process n h ws) = 8%nat.
Proof.
  induction n as [|n IH]; intros h ws Hh; [exact Hh|].
  simpl. apply IH, compress_length, Hh.
Qed.

End DigestFormat.

Lemma hash_format_aux (data : string) :
  String.length (sha256_hex data) = 64%nat
  /\ Forall (fun c => is_hex_char c = true)
            (list_ascii_of_string (sha256_hex data)).
Proof.
  rewrite sha256_hex_eq. unfold SHA256.hexdigest.
  destruct (concat_words_format
              (SHA256.digest_words (SHA256.bytes_of_string data)))
    as [Hl Hc].
  split; [|exact Hc].
  rewrite Hl. unfold SHA256.digest_words.
  rewrite process_length; reflexivity.
Qed.

(** X4: the digest [_hash] returns is always a string of exactly 64
    characters, each one of [0123456789abcdef], whatever the input. *)
Theorem hash_format :
  forall data : string,
    String.length (MerkleTree._hash data) = 64%nat
    /\ Forall (fun c => is_hex_char c = true)
              (list_ascii_of_string (MerkleTree._hash data)).
Proof.
  intros data. unfold MerkleTree._hash. apply hash_format_aux.
Qed.

(* ================================================================== *)
(** ** What a verifying proof says about the tree *)
(* ================================================================== *)

Section Soundness.

Import MerkleTree.

Lemma sha256_hex_length (s : string) : digest_length (sha256_hex s).
Proof. exact (proj1 (hash_format_aux s)). Qed.

(** Two concatenations with left parts of the same length. *)
Lemma append_eq_split (a : string) :
  forall a' b b',
    String.length a = String.length a' ->
    String.append a b = String.append a' b' ->
    a = a' /\ b = b'.
Proof.
  induction a as [|c a IH]; destruct a' as [|c' a']; simpl;
    intros b b' Hlen Heq; try discriminate.
  - split; [reflexivity | exact Heq].
  - injection Heq as Hc Heq. injection Hlen as Hlen.
    destruct (IH a' b b' Hlen Heq) as [-> ->]. rewrite Hc. split; reflexivity.
Qed.

Lemma leaf_nodes_digests (data : list string) :
  level_of_digests (leaf_nodes (map _hash data)).
Proof.
  unfold level_of_digests. apply Forall_forall. intros n Hn.
  apply (in_map hash) in Hn. rewrite leaf_nodes_hash in Hn.
  apply in_map_iff in Hn. destruct Hn as [d [<- _]].
  apply sha256_hex_length.
Qed.

Lemma next_level_digests (l : list MerkleNode) :
  level_of_digests (next_level l).
Proof.
  unfold level_of_digests.
  induction l as [| x | x y l IH] using list_pair_ind.
  - constructor.
  - constructor; [apply sha256_hex_length | constructor].
  - change (next_level (x :: y :: l))
      with (mkMerkleNode (_hash (String.append (hash x) (hash y)))
                         (Some x) (Some y) None :: next_level l).
    constructor; [apply sha256_hex_length | exact IH].
Qed.

(** The parent of position [2j], whether or not position [2j+1]
    exists. *)
Lemma next_level_parent (cur : list MerkleNode) :
  forall (j : nat) (a : MerkleNode),
    nth_error cur (2 * j) = Some a ->
    exists p b,
      nth_error (next_level cur) j = Some p
      /\ hash p = sha256_hex (String.append (hash a) (hash b))
      /\ (nth_error cur (2 * j + 1) = Some b
          \/ (nth_error cur (2 * j + 1) = None /\ b = a)).
Proof.
  induction cur as [| x | x y l IH] using list_pair_ind; intros j a Ha.
  - destruct j; discriminate.
  - destruct j as [|j].
    + simpl in Ha. injection Ha as ->.
      eexists. exists a. split; [reflexivity|]. split; [reflexivity|].
      right. split; reflexivity.
    + replace (2 * S j)%nat with (S (S (2 * j))) in Ha by lia.
      cbn [nth_error] in Ha. destruct (2 * j)%nat; discriminate.
  - destruct j as [|j].
    + simpl in Ha. injection Ha as ->.
      eexists. exists y. split; [reflexivity|]. split; [reflexivity|].
      left. reflexivity.
    + replace (2 * S j)%nat with (S (S (2 * j))) in Ha by lia.
      cbn [nth_error] in Ha.
      destruct (IH j a Ha) as [p [b [Hp [Hh Hb]]]].
      exists p, b. split; [exact Hp|]. split; [exact Hh|].
      replace (2 * S j + 1)%nat with (S (S (2 * j + 1))) by lia.
      exact Hb.
Qed.

(** Along the levels of a tree, a run of [verify_loop] that uses one
    digest-long sibling per level and ends on the hash of the top node
    started from the hash of the node at that position, unless two
    different strings with the same digest occurred. *)
Lemma verify_loop_sound (cur : list MerkleNode) rest :
  chain cur rest ->
  forall idx sibs c r,
    level_of_digests cur ->
    0 <= idx < len cur ->
    last rest cur = [r] ->
    List.length sibs = List.length rest ->
    digest_length c ->
    Forall digest_length sibs ->
    verify_loop sibs c idx = hash r ->
    (exists n, nth_error cur (Z.to_nat idx) = Some n /\ c = hash n)
    \/ sha256_collision.
Proof.
  induction 1 as [cur Hle | cur rest Hlt Hch IH];
    intros idx sibs c r Hdig Hidx Hlast Hlen Hc Hsibs Hver.
  - destruct sibs; [|discriminate]. simpl in Hver, Hlast.
    left. subst cur. exists r.
    assert (Z.to_nat idx = 0%nat) by (unfold len in Hidx; simpl in Hidx; lia).
    rewrite H. split; [reflexivity | exact Hver].
  - destruct sibs as [|s sibs]; [discriminate|].
    rewrite verify_loop_cons in Hver.
    rewrite last_cons in Hlast.
    inversion Hsibs as [|? ? Hs Hsibs']; subst.
    assert (Hidx2 : 0 <= idx / 2 < len (next_level cur)).
    { rewrite next_level_len. Z.div_mod_to_equations. lia. }
    destruct (IH (idx / 2) sibs (sha256_hex (combined s c idx)) r
                 (next_level_digests cur) Hidx2 Hlast
                 ltac:(simpl in Hlen; lia)
                 (sha256_hex_length _) Hsibs' Hver)
      as [[p [Hp Hcp]] | Hcol]; [|right; exact Hcol].
    destruct (getitem_in_range cur Hidx) as [n [_ Hn]].
    assert (Ha : exists a, nth_error cur (2 * Z.to_nat (idx / 2)) = Some a).
    { destruct (nth_error cur (2 * Z.to_nat (idx / 2))) as [a|] eqn:E;
        [exists a; reflexivity|].
      apply nth_error_None in E. unfold len in Hidx.
      Z.div_mod_to_equations. lia. }
    destruct Ha as [a Ha].
    destruct (next_level_parent cur _ Ha) as [p' [b [Hp' [Hh Hb]]]].
    rewrite Hp in Hp'. injection Hp' as <-.
    rewrite Hh in Hcp.
    destruct (string_dec (combined s c idx)
                         (String.append (hash a) (hash b))) as [Heq|Hne];
      [|right; exists (combined s c idx), (String.append (hash a) (hash b));
        split; assumption].
    left. exists n. split; [exact Hn|].
    assert (Hda : digest_length (hash a)).
    { unfold level_of_digests in Hdig. rewrite Forall_forall in Hdig.
      apply Hdig. eapply nth_error_In. exact Ha. }
    unfold combined in Heq.
    destruct (idx mod 2 =? 1) eqn:Hodd.
    + apply Z.eqb_eq in Hodd.
      destruct (@append_eq_split s (hash a) c (hash b)) as [_ Hcb];
        [unfold digest_length in *; congruence | exact Heq |].
      assert (E : (2 * Z.to_nat (idx / 2) + 1)%nat = Z.to_nat idx)
        by (Z.div_mod_to_equations; lia).
      rewrite E, Hn in Hb.
      destruct Hb as [Hb | [Hb _]]; [|discriminate].
      injection Hb as <-. exact Hcb.
    + apply Z.eqb_neq in Hodd.
      destruct (@append_eq_split c (hash a) s (hash b)) as [Hca _];
        [unfold digest_length in *; congruence | exact Heq |].
      assert (E : (2 * Z.to_nat (idx / 2))%nat = Z.to_nat idx)
        by (Z.div_mod_to_equations; lia).
      rewrite E, Hn in Ha. injection Ha as <-. exact Hca.
Qed.

End Soundness.



(* ================================================================== *)
(** ** The root as a commitment to the records *)
(* ================================================================== *)

Section Binding.

Import MerkleTree.

(** Two levels of the same size whose parents have the same hashes have
    the same hashes themselves, or exhibit a collision. *)
Lemma next_level_hashes_inj (c1 : list MerkleNode) :
  forall c2,
    List.length c1 = List.length c2 ->
    level_of_digests c1 -> level_of_digests c2 ->
    map hash (next_level c1) = map hash (next_level c2) ->
    map hash c1 = map hash c2 \/ sha256_collision.
Proof.
  unfold level_of_digests.
  induction c1 as [| x | x y l IH] using list_pair_ind;
    intros c2 Hlen H1 H2 Heq.
  - destruct c2; [left; reflexivity | discriminate].
  - destruct c2 as [|x2 [|? ?]]; try discriminate.
    simpl in Heq. injection Heq as Heq. unfold _hash in Heq.
    inversion H1; inversion H2; subst.
    destruct (string_dec (String.append (hash x) (hash x))
                         (String.append (hash x2) (hash x2))) as [E|E].
    + destruct (@append_eq_split (hash x) (hash x2) (hash x) (hash x2))
        as [Hx _]; [unfold digest_length in *; congruence | exact E |].
      left. simpl. rewrite Hx. reflexivity.
    + right. eexists. eexists. split; [exact E | exact Heq].
  - destruct c2 as [|x2 [|y2 l2]]; try discriminate.
    change (next_level (x :: y :: l))
      with (mkMerkleNode (_hash (String.append (hash x) (hash y)))
                         (Some x) (Some y) None :: next_level l) in Heq.
    change (next_level (x2 :: y2 :: l2))
      with (mkMerkleNode (_hash (String.append (hash x2) (hash y2)))
                         (Some x2) (Some y2) None :: next_level l2) in Heq.
    cbn [map hash] in Heq. injection Heq as Hhd Htl. unfold _hash in Hhd.
    inversion H1 as [|? ? Hdx H1']; inversion H1' as [|? ? Hdy H1''];
      inversion H2 as [|? ? Hdx2 H2']; inversion H2' as [|? ? Hdy2 H2''];
      subst.
    destruct (IH l2 ltac:(simpl in Hlen; lia) H1'' H2'' Htl) as [Hl|Hcol];
      [|right; exact Hcol].
    destruct (string_dec (String.append (hash x) (hash y))
                         (String.append (hash x2) (hash y2))) as [E|E].
    + destruct (@append_eq_split (hash x) (hash x2) (hash y) (hash y2))
        as [Hx Hy]; [unfold digest_length in *; congruence | exact E |].
      left. cbn [map]. rewrite Hx, Hy, Hl. reflexivity.
    + right. eexists. eexists. split; [exact E | exact Hhd].
Qed.

(** Two trees over leaf levels of the same size whose top nodes have the
    same hash have the same leaf hashes, or exhibit a collision. *)
Lemma chain_top_inj (c1 : list MerkleNode) r1 :
  chain c1 r1 ->
  forall c2 r2 t1 t2,
    chain c2 r2 ->
    List.length c1 = List.length c2 ->
    level_of_digests c1 -> level_of_digests c2 ->
    last r1 c1 = [t1] -> last r2 c2 = [t2] ->
    hash t1 = hash t2 ->
    map hash c1 = map hash c2 \/ sha256_collision.
Proof.
  induction 1 as [c1 Hle | c1 r1 Hlt Hch IH];
    intros c2 r2 t1 t2 Hch2 Hlen H1 H2 Hl1 Hl2 Hh.
  - inversion Hch2 as [? Hle2 | ? ? Hlt2 ?]; subst.
    + simpl in Hl1, Hl2. subst. left. simpl. rewrite Hh. reflexivity.
    + unfold len in *. lia.
  - inversion Hch2 as [? Hle2 | ? r2' Hlt2 Hch2']; subst.
    + unfold len in *. lia.
    + rewrite last_cons in Hl1, Hl2.
      assert (Hlen' : List.length (next_level c1)
                      = List.length (next_level c2)).
      { pose proof (next_level_len c1) as E1.
        pose proof (next_level_len c2) as E2.
        unfold len in E1, E2. rewrite Hlen in E1. lia. }
      destruct (IH _ _ _ _ Hch2' Hlen' (next_level_digests c1)
                   (next_level_digests c2) Hl1 Hl2 Hh) as [Hn|Hcol];
        [|right; exact Hcol].
      exact (next_level_hashes_inj Hlen H1 H2 Hn).
Qed.

Lemma map_hash_inj (l1 : list string) :
  forall l2,
    map sha256_hex l1 = map sha256_hex l2 ->
    l1 = l2 \/ sha256_collision.
Proof.
  induction l1 as [|a l1 IH]; intros [|b l2] Heq; try discriminate.
  - left. reflexivity.
  - simpl in Heq. injection Heq as Hhd Htl.
    destruct (IH l2 Htl) as [->|Hcol]; [|right; exact Hcol].
    destruct (string_dec a b) as [->|Hne]; [left; reflexivity|].
    right. exists a, b. split; assumption.
Qed.

End Binding.



(* ================================================================== *)
(** ** The donation adapter *)
(* ================================================================== *)

Section Adapter.

Import DonationMerkleTree.

(** Construction of a [DonationMerkleTree] from a non-empty list. *)
Lemma donation_init_built (d : Donation.t) (ds : list Donation.t) :
  exists b,
    DonationMerkleTree.__init__ (d :: ds) = Ok (mk b (d :: ds))
    /\ built (map donation_str (d :: ds)) b.
Proof.
  unfold DonationMerkleTree.__init__.
  cbn [map].
  destruct (init_built (donation_str d) (map donation_str ds))
    as [b [Hb Hbuilt]].
  exists b. rewrite Hb. split; [reflexivity | exact Hbuilt].
Qed.

Lemma find_index_none (ds : list Donation.t) :
  forall i donation_id,
    (forall dn, In dn ds -> Donation.id dn <> donation_id) ->
    find_index i ds donation_id = None.
Proof.
  induction ds as [|d ds IH]; intros i donation_id Hall; [reflexivity|].
  simpl. destruct (Z.eqb_spec (Donation.id d) donation_id) as [E|E].
  - exfalso. exact (Hall d (or_introl eq_refl) E).
  - apply IH. intros dn Hin. apply Hall. right. exact Hin.
Qed.

Lemma find_index_first (ds : list Donation.t) :
  forall i donation_id k dk,
    nth_error ds k = Some dk ->
    Donation.id dk = donation_id ->
    (forall j dj, (j < k)%nat -> nth_error ds j = Some dj ->
                  Donation.id dj <> donation_id) ->
    find_index i ds donation_id = Some (i + Z.of_nat k).
Proof.
  induction ds as [|d ds IH]; intros i donation_id k dk Hk Hid Hfirst.
  - destruct k; discriminate.
  - simpl. destruct k as [|k].
    + simpl in Hk. injection Hk as ->.
      apply Z.eqb_eq in Hid. rewrite Hid. f_equal. lia.
    + destruct (Z.eqb_spec (Donation.id d) donation_id) as [E|E].
      * exfalso. exact (Hfirst 0%nat d ltac:(lia) eq_refl E).
      * simpl in Hk.
        rewrite (IH (i + 1) donation_id k dk Hk Hid).
        -- f_equal. lia.
        -- intros j dj Hj Hnth. apply (Hfirst (S j) dj); [lia | exact Hnth].
Qed.

End Adapter.

(** X10, [DonationMerkleTree]: an empty list of donations raises the
    "Cannot build tree with empty data" error.  For a non-empty list the
    tree is built, its leaves are the [get_donation_hash] of the donations
    in order, and [generate_donation_proof(donation_id)] never raises: it
    returns [None] when no donation has that id, and otherwise the proof
    of the first donation with that id, whose index is that donation's
    position, whose leaf is its [get_donation_hash] and whose root is the
    root hash of the tree. *)
Theorem generate_donation_proof_result :
  DonationMerkleTree.__init__ []
  = Raise (ValueError "Cannot build tree with empty data")
  /\ forall (d : Donation.t) (ds : list Donation.t) (donation_id : Z),
       exists t,
         DonationMerkleTree.__init__ (d :: ds) = Ok t
         /\ DonationMerkleTree.donations t = d :: ds
         /\ MerkleTree.leaves (DonationMerkleTree.base t)
            = map DonationMerkleTree.get_donation_hash (d :: ds)
         /\ ((forall dn, In dn (d :: ds) -> Donation.id dn <> donation_id) ->
             DonationMerkleTree.generate_donation_proof t donation_id
             = Ok None)
         /\ (forall k dk,
               nth_error (d :: ds) k = Some dk ->
               Donation.id dk = donation_id ->
               (forall j dj, (j < k)%nat -> nth_error (d :: ds) j = Some dj ->
                             Donation.id dj <> donation_id) ->
               exists p,
                 DonationMerkleTree.generate_donation_proof t donation_id
                 = Ok (Some p)
                 /\ MerkleProof.index p = Z.of_nat k
                 /\ MerkleProof.leaf p
                    = DonationMerkleTree.get_donation_hash dk
                 /\ MerkleTree.get_root_hash (DonationMerkleTree.base t)
                    = Ok (MerkleProof.root p)).
Proof.
  split; [reflexivity|].
  intros d ds donation_id.
  destruct (donation_init_built d ds) as [b [Hinit Hb]].
  eexists. split; [exact Hinit|].
  cbn [DonationMerkleTree.donations DonationMerkleTree.base].
  split; [reflexivity|].
  assert (Hleaves : MerkleTree.leaves b
                    = map DonationMerkleTree.get_donation_hash (d :: ds)).
  { destruct Hb. cbn [MerkleTree.leaves]. rewrite map_map. reflexivity. }
  split; [exact Hleaves|].
  unfold DonationMerkleTree.generate_donation_proof.
  cbn [DonationMerkleTree.donations DonationMerkleTree.base].
  split.
  - intros Hnone. rewrite (find_index_none _ 0 Hnone). reflexivity.
  - intros k dk Hk Hid Hfirst.
    rewrite (find_index_first _ 0 Hk Hid Hfirst).
    assert (Hi : 0 <= 0 + Z.of_nat k
                 < len (map DonationMerkleTree.donation_str (d :: ds))).
    { assert (k < List.length (d :: ds))%nat
        by (apply nth_error_Some; rewrite Hk; discriminate).
      unfold len. rewrite length_map. lia. }
    destruct (generate_proof_built Hb Hi)
      as [sibs [l [r [Hg [Hroot [Hleaf _]]]]]].
    rewrite Hg. cbn [bind].
    eexists. split; [reflexivity|].
    cbn [MerkleProof.index MerkleProof.leaf MerkleProof.root].
    split; [lia|]. split; [|exact Hroot].
    rewrite Hleaves in Hleaf.
    replace (Z.to_nat (0 + Z.of_nat k)) with k in Hleaf by lia.
    rewrite nth_error_map, Hk in Hleaf. simpl in Hleaf.
    injection Hleaf as <-. reflexivity.
Qed.

(** X12: [create_charity_merkle_tree] never raises.  It returns [None] when
    the store has no confirmed donation for the charity and also when the
    query itself fails; otherwise it returns the tree of exactly the
    donations the store returned, in the store's order, and that tree has
    a root hash. *)
Theorem create_charity_merkle_tree_result :
  forall (store : Store) (charity_id : Z),
    match store charity_id with
    | Ok (d :: ds) =>
        exists t r,
          create_charity_merkle_tree store charity_id = Some t
          /\ DonationMerkleTree.donations t = d :: ds
          /\ MerkleTree.leaves (DonationMerkleTree.base t)
             = map DonationMerkleTree.get_donation_hash (d :: ds)
          /\ MerkleTree.get_root_hash (DonationMerkleTree.base t) = Ok r
    | Ok [] => create_charity_merkle_tree store charity_id = None
    | Raise _ => create_charity_merkle_tree store charity_id = None
    end.
Proof.
  intros store charity_id. unfold create_charity_merkle_tree.
  destruct (store charity_id) as [[|d ds]|e]; cbn [bind]; try reflexivity.
  destruct (donation_init_built d ds) as [b [Hinit Hb]].
  rewrite Hinit. cbn [bind].
  destruct Hb as [rest r Hch Hlast].
  eexists. exists (hash r). split; [reflexivity|].
  cbn [DonationMerkleTree.donations DonationMerkleTree.base
       MerkleTree.leaves].
  split; [reflexivity|]. split; [|reflexivity].
  rewrite map_map. reflexivity.
Qed.

(* ================================================================== *)
(** ** Tree information and the complete result of the end-to-end check *)
(* ================================================================== *)

Section Results.

Import MerkleTree.

Lemma built_tree_info (data : list string) (t : MerkleTree.t) :
  built data t ->
  0 < len data ->
  exists r,
    get_root_hash t = Ok r
    /\ leaves t = map _hash data
    /\ get_tree_info t = Ok (tree_info_of (map _hash data) r).
Proof.
  intros Hb Hpos. destruct Hb as [rest r Hch Hlast].
  exists (hash r). split; [reflexivity|]. split; [reflexivity|].
  unfold get_tree_info, get_root_hash. cbn [root leaves tree bind].
  unfold tree_info_of.
  assert (Hlen : len (leaf_nodes (map _hash data)) = len (map _hash data))
    by apply leaf_nodes_len.
  assert (Hpos' : 0 < len (map _hash data))
    by (unfold len in *; rewrite length_map; exact Hpos).
  destruct (chain_shape Hch) as [Hn _].
  rewrite len_cons, Hn, Hlen by (rewrite Hlen; exact Hpos').
  replace (Z.log2_up (len (map _hash data)) + 1)
    with (1 + Z.log2_up (len (map _hash data))) by lia.
  reflexivity.
Qed.

Lemma built_roundtrip (data : list string) (t : MerkleTree.t) (i : Z)
      (p : MerkleProof.t) :
  built data t ->
  0 <= i < len data ->
  generate_proof t i = Ok p ->
  Forall (fun l => Z.even (len l) = true) (removelast (tree t)) ->
  verify_proof p = true /\ get_root_hash t = Ok (MerkleProof.root p).
Proof.
  intros Hb Hi Hgen Hall.
  destruct (generate_proof_built Hb Hi)
    as [sibs [l [r [Hg [Hroot [Hleaf [Hloop _]]]]]]].
  rewrite Hg in Hgen. injection Hgen as <-.
  cbn [MerkleProof.root]. split; [|exact Hroot].
  destruct Hb as [rest r0 Hch Hlast].
  cbn [tree leaves] in *.
  set (lvl := leaf_nodes (map _hash data)) in *.
  assert (Hr : r = hash r0).
  { unfold get_root_hash in Hroot. cbn in Hroot.
    injection Hroot as <-. reflexivity. }
  assert (Hn : exists n, nth_error lvl (Z.to_nat i) = Some n /\ hash n = l).
  { rewrite <- (leaf_nodes_hash (map _hash data)) in Hleaf.
    fold lvl in Hleaf. rewrite nth_error_map in Hleaf.
    destruct (nth_error lvl (Z.to_nat i)) as [n|]; [|discriminate].
    exists n. split; [reflexivity|]. simpl in Hleaf. congruence. }
  destruct Hn as [n [Hn Hl]].
  destruct (@roundtrip_chain lvl rest Hch i n [] Hall (proj1 Hi) Hn)
    as [ext [r1 [Hrun [Hlast1 Hver]]]].
  simpl app in Hrun. rewrite Hrun in Hloop. injection Hloop as <-.
  rewrite Hlast in Hlast1. injection Hlast1 as <-.
  unfold verify_proof. cbn.
  apply String.eqb_eq. rewrite <- Hl, Hver, Hr. reflexivity.
Qed.

Lemma built_pow2_even (data : list string) (t : MerkleTree.t) (k : Z) :
  built data t ->
  0 <= k -> len data = 2 ^ k ->
  Forall (fun l => Z.even (len l) = true) (removelast (tree t)).
Proof.
  intros Hb Hk Hpow. destruct Hb as [rest r Hch Hlast]. cbn [tree].
  apply (chain_pow2_even Hch Hk).
  rewrite leaf_nodes_len. unfold len. rewrite length_map. exact Hpow.
Qed.

End Results.

(** X9: [get_tree_info] on the tree of a non-empty list of records never
    raises; it reports the number of records, the depth
    1 + ceil(log2(number of records)), the root hash, and as preview the
    hashes of the first five records (of all of them when there are fewer
    than five). *)
Theorem get_tree_info_result :
  forall (x : string) (xs : list string),
    exists t r,
      MerkleTree.__init__ (x :: xs) = Ok t
      /\ MerkleTree.get_root_hash t = Ok r
      /\ MerkleTree.get_tree_info t
         = Ok [ ("total_leaves", PInt (len (x :: xs)));
                ("tree_depth", PInt (1 + Z.log2_up (len (x :: xs))));
                ("root_hash", PStr r);
                ("leaves",
                 PList (map PStr
                          (map MerkleTree._hash (firstn 5 (x :: xs))))) ].
Proof.
  intros x xs. destruct (init_built x xs) as [t [Ht Hb]].
  assert (Hpos : 0 < len (x :: xs))
    by (rewrite len_cons; pose proof (len_nonneg xs); lia).
  destruct (built_tree_info Hb Hpos) as [r [Hr [_ Hinfo]]].
  exists t, r. split; [exact Ht|]. split; [exact Hr|].
  rewrite Hinfo. unfold tree_info_of.
  replace (len (map MerkleTree._hash (x :: xs))) with (len (x :: xs))
    by (unfold len; rewrite length_map; reflexivity).
  rewrite firstn_map. reflexivity.
Qed.



(** The siblings the loop of [generate_proof] collects are hashes of
    nodes of the levels. *)
Lemma getitem_digest (cur : list MerkleNode) (j : Z) (s : MerkleNode) :
  level_of_digests cur ->
  getitem cur j = Ok s ->
  digest_length (hash s).
Proof.
  intros Hdig Hget. unfold getitem in Hget.
  destruct ((0 <=? (if j <? 0 then len cur + j else j))
            && ((if j <? 0 then len cur + j else j) <? len cur));
    [|discriminate].
  destruct (nth_error cur (Z.to_nat (if j <? 0 then len cur + j else j)))
    as [s'|] eqn:E; [|discriminate].
  injection Hget as <-.
  unfold level_of_digests in Hdig. rewrite Forall_forall in Hdig.
  apply Hdig. eapply nth_error_In. exact E.
Qed.

Lemma proof_loop_digests (cur : list MerkleNode) rest :
  chain cur rest ->
  forall idx acc out,
    Forall digest_length acc ->
    level_of_digests cur ->
    MerkleTree.proof_loop (removelast (cur :: rest)) acc idx = Ok out ->
    Forall digest_length out.
Proof.
  induction 1 as [cur Hle | cur rest Hlt Hch IH];
    intros idx acc out Hacc Hdig Hrun.
  - simpl in Hrun. injection Hrun as <-. exact Hacc.
  - rewrite removelast_cons2, proof_loop_cons in Hrun.
    destruct (MerkleTree.proof_loop [cur] acc idx) as [acc'|e] eqn:Hstep;
      [|discriminate].
    cbn [bind] in Hrun.
    apply (IH (idx / 2) acc' out); [| apply next_level_digests | exact Hrun].
    cbn [MerkleTree.proof_loop] in Hstep.
    destruct (idx mod 2 =? 1).
    + destruct (idx - 1 >=? 0); [|injection Hstep as <-; exact Hacc].
      destruct (getitem cur (idx - 1)) as [s|] eqn:Hget; [|discriminate].
      cbn [bind] in Hstep. injection Hstep as <-.
      apply Forall_app. split; [exact Hacc|].
      constructor; [eapply getitem_digest; eassumption | constructor].
    + destruct (idx + 1 <? len cur); [|injection Hstep as <-; exact Hacc].
      destruct (getitem cur (idx + 1)) as [s|] eqn:Hget; [|discriminate].
      cbn [bind] in Hstep. injection Hstep as <-.
      apply Forall_app. split; [exact Hacc|].
      constructor; [eapply getitem_digest; eassumption | constructor].
Qed.

(** X5: what [generate_proof] returns for a valid index [i] on the tree of a
    non-empty list of records: the hash of record [i] as leaf, [i] itself
    as index, the root hash of the tree as root, and at most
    ceil(log2(number of records)) sibling hashes, each one a digest. *)
Theorem generate_proof_result :
  forall (x : string) (xs : list string) (i : Z),
    0 <= i < len (x :: xs) ->
    exists t p,
      MerkleTree.__init__ (x :: xs) = Ok t
      /\ MerkleTree.generate_proof t i = Ok p
      /\ option_map MerkleTree._hash (nth_error (x :: xs) (Z.to_nat i))
         = Some (MerkleProof.leaf p)
      /\ MerkleProof.index p = i
      /\ MerkleTree.get_root_hash t = Ok (MerkleProof.root p)
      /\ len (MerkleProof.proof p) <= Z.log2_up (len (x :: xs))
      /\ Forall digest_length (MerkleProof.proof p).
Proof.
  intros x xs i Hi. destruct (init_built x xs) as [t [Ht Hb]].
  destruct (generate_proof_built Hb Hi)
    as [sibs [l [r [Hg [Hroot [Hleaf [Hloop Hle]]]]]]].
  exists t. eexists. split; [exact Ht|]. split; [exact Hg|].
  cbn [MerkleProof.leaf MerkleProof.index MerkleProof.root
       MerkleProof.proof].
  destruct Hb as [rest r0 Hch Hlast].
  cbn [MerkleTree.leaves MerkleTree.tree] in *.
  split; [rewrite nth_error_map in Hleaf; exact Hleaf|].
  split; [reflexivity|]. split; [exact Hroot|].
  set (lvl := MerkleTree.leaf_nodes (map MerkleTree._hash (x :: xs))) in *.
  assert (Hlen : len lvl = len (x :: xs)).
  { unfold lvl. rewrite leaf_nodes_len. unfold len. rewrite length_map.
    reflexivity. }
  split.
  - destruct (chain_shape Hch) as [Hn _].
    rewrite <- Hlen, <- Hn by lia.
    unfold len. simpl List.length in Hle. lia.
  - eapply proof_loop_digests;
      [exact Hch | constructor | apply leaf_nodes_digests | exact Hloop].
Qed.

Lemma generate_proof_result_witness :
  exists t p,
    MerkleTree.__init__ ["A"; "B"; "C"] = Ok t
    /\ MerkleTree.generate_proof t 2 = Ok p
    /\ option_map MerkleTree._hash (nth_error ["A"; "B"; "C"] (Z.to_nat 2))
       = Some (MerkleProof.leaf p)
    /\ MerkleProof.index p = 2
    /\ MerkleTree.get_root_hash t = Ok (MerkleProof.root p)
    /\ len (MerkleProof.proof p) <= Z.log2_up (len ["A"; "B"; "C"])
    /\ Forall digest_length (MerkleProof.proof p).
Proof.
  apply (@generate_proof_result "A" ["B"; "C"] 2).
  unfold len. simpl. lia.
Defined.

(* ================================================================== *)
(** ** From a generated proof to the end-to-end check *)
(* ================================================================== *)

Lemma find_index_some (ds : list Donation.t) :
  forall i dn donation_id,
    In dn ds -> Donation.id dn = donation_id ->
    exists k,
      (k < List.length ds)%nat
      /\ DonationMerkleTree.find_index i ds donation_id
         = Some (i + Z.of_nat k).
Proof.
  induction ds as [|d ds IH]; intros i dn donation_id Hin Hid; [contradiction|].
  simpl. destruct (Z.eqb_spec (Donation.id d) donation_id) as [E|E].
  - exists 0%nat. split; [lia|]. f_equal. lia.
  - destruct Hin as [->|Hin]; [contradiction|].
    destruct (IH (i + 1) dn donation_id Hin Hid) as [k [Hk Hf]].
    exists (S k). split; [lia|]. rewrite Hf. f_equal. lia.
Qed.

(** X14: a proof handed out for a donation is accepted by the end-to-end
    check as long as the store has not changed: when the charity has
    [2^k] confirmed donations and one of them has the requested id,
    [generate_donation_proof] returns a proof, and
    [verify_donation_inclusion] on the payload made of its four fields
    reports proof_valid, root_matches and verified all true. *)
Theorem generated_proof_is_included :
  forall (store : Store) (charity_id : Z) (d : Donation.t)
         (ds : list Donation.t) (dn : Donation.t) (k : Z),
    store charity_id = Ok (d :: ds) ->
    0 <= k -> len (d :: ds) = 2 ^ k ->
    In dn (d :: ds) ->
    exists t p result,
      create_charity_merkle_tree store charity_id = Some t
      /\ DonationMerkleTree.generate_donation_proof t (Donation.id dn)
         = Ok (Some p)
      /\ verify_donation_inclusion store charity_id
           (Payload.mk (Some (MerkleProof.proof p))
                       (Some (MerkleProof.leaf p))
                       (Some (MerkleProof.root p))
                       (Some (MerkleProof.index p)))
         = Ok result
      /\ dict_get result "proof_valid" = Some (PBool true)
      /\ dict_get result "root_matches" = Some (PBool true)
      /\ dict_get result "verified" = Some (PBool true).
Proof.
  intros store charity_id d ds dn k Hstore Hk Hpow Hin.
  destruct (donation_init_built d ds) as [b [Hinit Hb]].
  assert (Hcreate : create_charity_merkle_tree store charity_id
                    = Some (DonationMerkleTree.mk b (d :: ds))).
  { unfold create_charity_merkle_tree. rewrite Hstore. cbn [bind].
    rewrite Hinit. reflexivity. }
  destruct (@find_index_some (d :: ds) 0 dn (Donation.id dn) Hin eq_refl)
    as [j [Hj Hfind]].
  assert (Hi : 0 <= 0 + Z.of_nat j
               < len (map DonationMerkleTree.donation_str (d :: ds))).
  { unfold len. rewrite length_map. lia. }
  destruct (generate_proof_built Hb Hi) as [sibs [l [r [Hg _]]]].
  assert (Hlen : len (map DonationMerkleTree.donation_str (d :: ds)) = 2 ^ k).
  { unfold len in *. rewrite length_map. exact Hpow. }
  destruct (built_roundtrip Hb Hi Hg (built_pow2_even Hb Hk Hlen))
    as [Hver Hroot].
  cbn [MerkleProof.root] in Hroot.
  assert (Hpos : 0 < len (map DonationMerkleTree.donation_str (d :: ds))).
  { rewrite Hlen. apply Z.pow_pos_nonneg; lia. }
  destruct (built_tree_info Hb Hpos) as [r0 [Hr0 [_ Hinfo]]].
  rewrite Hroot in Hr0. injection Hr0 as <-.
  eexists. exists (MerkleProof.mk sibs l r (0 + Z.of_nat j)). eexists.
  split; [exact Hcreate|].
  split.
  { unfold DonationMerkleTree.generate_donation_proof.
    cbn [DonationMerkleTree.donations DonationMerkleTree.base].
    rewrite Hfind, Hg. reflexivity. }
  cbn [MerkleProof.proof MerkleProof.leaf MerkleProof.root MerkleProof.index].
  split.
  { unfold verify_donation_inclusion, verify_donation_inclusion_try.
    rewrite Hcreate. cbn [DonationMerkleTree.base].
    rewrite Hroot. cbn [bind lookup Payload.proof Payload.leaf Payload.root
                          Payload.index].
    rewrite Hinfo. cbn [bind MerkleProof.root]. rewrite Hver.
    rewrite String.eqb_refl. reflexivity. }
  split; [reflexivity|]. split; reflexivity.
Qed.

Lemma generated_proof_is_included_witness :
  let store : Store :=
    fun _ => Ok [Donation.mk 1 "0xaa" "10.00" 1700000000 "0x01";
                 Donation.mk 2 "0xbb" "2.50" 1700000100 "0x02"] in
  exists t p result,
    create_charity_merkle_tree store 7 = Some t
    /\ DonationMerkleTree.generate_donation_proof t 2 = Ok (Some p)
    /\ verify_donation_inclusion store 7
         (Payload.mk (Some (MerkleProof.proof p))
                     (Some (MerkleProof.leaf p))
                     (Some (MerkleProof.root p))
                     (Some (MerkleProof.index p)))
       = Ok result
    /\ dict_get result "proof_valid" = Some (PBool true)
    /\ dict_get result "root_matches" = Some (PBool true)
    /\ dict_get result "verified" = Some (PBool true).
Proof.
  intros store.
  apply (@generated_proof_is_included store 7
           (Donation.mk 1 "0xaa" "10.00" 1700000000 "0x01")
           [Donation.mk 2 "0xbb" "2.50" 1700000100 "0x02"]
           (Donation.mk 2 "0xbb" "2.50" 1700000100 "0x02") 1).
  - reflexivity.
  - lia.
  - reflexivity.
  - simpl. right. left. reflexivity.
Defined.

(** X16: [get_donation_merkle_info] never raises.  For a charity with
    confirmed donations it reports the root hash of their tree, their
    number, the depth 1 + ceil(log2(number)) and the creation date of the
    first donation of the store's order (never [None]); when the store has
    none, or the query fails, it reports the error
    "No donations found". *)
Theorem get_donation_merkle_info_result :
  forall (store : Store) (isoformat : Donation.t -> string)
         (charity_id : Z),
    match store charity_id with
    | Ok (d :: ds) =>
        exists t r,
          create_charity_merkle_tree store charity_id = Some t
          /\ MerkleTree.get_root_hash (DonationMerkleTree.base t) = Ok r
          /\ get_donation_merkle_info store isoformat charity_id
             = Ok [ ("root_hash", Some (PStr r));
                    ("total_donations", Some (PInt (len (d :: ds))));
                    ("tree_depth",
                     Some (PInt (1 + Z.log2_up (len (d :: ds)))));
                    ("created_at", Some (PStr (isoformat d))) ]
    | _ =>
        get_donation_merkle_info store isoformat charity_id
        = Ok [ ("error", Some (PStr "No donations found")) ]
    end.
Proof.
  intros store isoformat charity_id.
  unfold get_donation_merkle_info, create_charity_merkle_tree.
  destruct (store charity_id) as [[|d ds]|e]; cbn [bind]; try reflexivity.
  destruct (donation_init_built d ds) as [b [Hinit Hb]].
  rewrite Hinit. cbn [bind DonationMerkleTree.base DonationMerkleTree.donations].
  destruct Hb as [rest r Hch Hlast].
  eexists. exists (hash r). split; [reflexivity|]. split; [reflexivity|].
  unfold MerkleTree.get_root_hash.
  cbn [MerkleTree.root MerkleTree.tree bind DonationMerkleTree.base].
  destruct (chain_shape Hch) as [Hn _].
  assert (Hlen : len (MerkleTree.leaf_nodes
                        (map MerkleTree._hash
                             (map DonationMerkleTree.donation_str (d :: ds))))
                 = len (d :: ds)).
  { rewrite leaf_nodes_len. unfold len. rewrite !length_map. reflexivity. }
  assert (Hpos : 0 < len (d :: ds))
    by (rewrite len_cons; pose proof (len_nonneg ds); lia).
  assert (Hdepth : len (MerkleTree.leaf_nodes
                          (map MerkleTree._hash
                               (map DonationMerkleTree.donation_str
                                    (d :: ds))) :: rest)
                   = 1 + Z.log2_up (len (d :: ds))).
  { rewrite (len_cons _ rest), Hn by (rewrite Hlen; exact Hpos).
    rewrite Hlen. lia. }
  rewrite Hdepth. reflexivity.
Qed.

(* ================================================================== *)
(** ** What verification does not look at *)
(* ================================================================== *)

Lemma append_assoc (a b c : string) :
  String.append (String.append a b) c = String.append a (String.append b c).
Proof. induction a as [|x a IH]; simpl; [reflexivity | rewrite IH; reflexivity]. Qed.

(** X8: [verify_proof] does not see where the leaf ends and the first
    sibling begins: at an even index, characters moved from the end of the
    leaf to the front of the first sibling leave the result unchanged, and
    at an odd index so do characters moved from the front of the leaf to
    the end of the first sibling.  So acceptance pins the leaf only for
    proofs whose entries are checked to be digests. *)
Theorem verify_proof_boundary :
  forall (u s : string) (sibs : list string) (l r : string) (j : Z),
    MerkleTree.verify_proof
      (MerkleProof.mk (String.append u s :: sibs) l r (2 * j))
    = MerkleTree.verify_proof
        (MerkleProof.mk (s :: sibs) (String.append l u) r (2 * j))
    /\ MerkleTree.verify_proof
         (MerkleProof.mk (String.append s u :: sibs) l r (2 * j + 1))
       = MerkleTree.verify_proof
           (MerkleProof.mk (s :: sibs) (String.append u l) r (2 * j + 1)).
Proof.
  intros u s sibs l r j. unfold MerkleTree.verify_proof.
  cbn [MerkleProof.proof MerkleProof.leaf MerkleProof.root MerkleProof.index].
  rewrite !verify_loop_cons. unfold combined.
  replace ((2 * j) mod 2) with 0 by (Z.div_mod_to_equations; lia).
  replace ((2 * j + 1) mod 2) with 1 by (Z.div_mod_to_equations; lia).
  cbn [Z.eqb]. rewrite !append_assoc. split; reflexivity.
Qed.

(* ================================================================== *)
(** ** The end-to-end check, read backwards *)
(* ================================================================== *)

Lemma built_sound (data : list string) (t : MerkleTree.t) (i : Z)
      (sibs : list string) (l r : string) :
  built data t ->
  0 <= i < len data ->
  digest_length l ->
  Forall digest_length sibs ->
  MerkleTree.get_root_hash t = Ok r ->
  len sibs = Z.log2_up (len data) ->
  MerkleTree.verify_proof (MerkleProof.mk sibs l r i) = true ->
  nth_error (MerkleTree.leaves t) (Z.to_nat i) = Some l \/ sha256_collision.
Proof.
  intros Hb Hi Hl Hsibs Hroot Hlen Hv.
  destruct Hb as [rest r0 Hch Hlast].
  unfold MerkleTree.get_root_hash in Hroot. cbn in Hroot.
  injection Hroot as <-.
  cbn [MerkleTree.leaves].
  unfold MerkleTree.verify_proof in Hv. cbn in Hv.
  apply String.eqb_eq in Hv.
  set (lvl := MerkleTree.leaf_nodes (map MerkleTree._hash data)) in *.
  assert (Hlvl : len lvl = len data).
  { unfold lvl. rewrite leaf_nodes_len. unfold len. rewrite length_map.
    reflexivity. }
  assert (Hi' : 0 <= i < len lvl) by (rewrite Hlvl; exact Hi).
  assert (Hlen' : List.length sibs = List.length rest).
  { destruct (chain_shape Hch) as [Hn _].
    rewrite <- Hlvl, <- Hn in Hlen by lia. unfold len in Hlen. lia. }
  destruct (@verify_loop_sound lvl rest Hch i sibs l r0
              (leaf_nodes_digests data) Hi' Hlast Hlen' Hl Hsibs Hv)
    as [[n [Hn Hc]] | Hcol]; [|right; exact Hcol].
  left. rewrite <- (leaf_nodes_hash (map MerkleTree._hash data)).
  fold lvl. rewrite nth_error_map, Hn. simpl. rewrite Hc. reflexivity.
Qed.



(* ================================================================== *)
(** ** The canonical string of a donation *)
(* ================================================================== *)

Section Canonical.

Import DonationMerkleTree.

Lemma uint_colon_free (u : Decimal.uint) :
  colon_free (NilEmpty.string_of_uint u).
Proof.
  unfold colon_free.
  induction u; simpl; constructor; try discriminate; assumption.
Qed.

Lemma str_of_int_colon_free (z : Z) : colon_free (str_of_int z).
Proof.
  unfold str_of_int, NilZero.string_of_int, NilZero.string_of_uint.
  destruct (Z.to_int z) as [u|u].
  - destruct u; try apply (uint_colon_free (Decimal.D0 _));
      try (unfold colon_free; simpl; constructor;
           [discriminate | apply uint_colon_free]).
    unfold colon_free. simpl. constructor; [discriminate | constructor].
  - unfold colon_free. simpl. constructor; [discriminate|].
    destruct u;
      try (simpl; constructor; [discriminate | apply uint_colon_free]).
    simpl. constructor; [discriminate | constructor].
Qed.

Lemma to_int_proper (z : Z) :
  Z.to_int z <> Decimal.Pos Decimal.Nil
  /\ Z.to_int z <> Decimal.Neg Decimal.Nil.
Proof.
  destruct z as [|p|p]; simpl; split; try discriminate;
    intros E; injection E as E;
    exact (DecimalPos.Unsigned.to_uint_nonnil p E).
Qed.

Lemma str_of_int_inj (z1 z2 : Z) : str_of_int z1 = str_of_int z2 -> z1 = z2.
Proof.
  unfold str_of_int. intros H.
  destruct (to_int_proper z1) as [H1 H1'].
  destruct (to_int_proper z2) as [H2 H2'].
  pose proof (NilZero.isi (Z.to_int z1) H1 H1') as E1.
  pose proof (NilZero.isi (Z.to_int z2) H2 H2') as E2.
  rewrite H, E2 in E1. injection E1 as E.
  rewrite <- (DecimalZ.of_to z1), <- (DecimalZ.of_to z2), E. reflexivity.
Qed.

(** Splitting at the first [:] is unambiguous when the left parts have
    none. *)
Lemma sep_inj (a : string) :
  forall a' b b',
    colon_free a -> colon_free a' ->
    sep a b = sep a' b' -> a = a' /\ b = b'.
Proof.
  unfold sep, colon_free.
  induction a as [|c a IH]; destruct a' as [|c' a']; simpl;
    intros b b' Ha Ha' H.
  - injection H as H. split; [reflexivity | exact H].
  - injection H as Hc _. inversion Ha' as [|? ? Hne _]; subst.
    exfalso. apply Hne. reflexivity.
  - injection H as Hc _. inversion Ha as [|? ? Hne _]; subst.
    exfalso. apply Hne. reflexivity.
  - injection H as Hc H.
    inversion Ha; inversion Ha'; subst.
    destruct (IH a' b b') as [-> ->]; auto.
Qed.

End Canonical.

